(** * gplugins: the Lumerical taper design recipe and the Layer Builder
      process-file generator

    A shallow embedding of
      - [gplugins/lumerical/recipes/taper_design_recipe.py]
        (class [RoutingTaperDesignIntent], and [__hash__] and [eval] of class
        [RoutingTaperDesignRecipe]);
      - [gplugins/lumerical/utils.py] (function [to_lbr]).

    Python floats and numpy's float64 are IEEE 754 binary64 numbers: they are
    Rocq's primitive floats, with the comparison and arithmetic operators of
    the source.  Python exceptions are values of [exception]; a statement
    sequence is a computation in the state-and-exception monad [M].  The
    external collaborators (the gdsfactory cell, the Lumerical EME session,
    pydantic's serialisers, hashlib) are the fields of the class
    [Collaborators]. *)

From Stdlib Require Import Floats ZArith Lia Ascii String.
From Stdlib.Strings Require Import Byte.
From stdpp Require Import base option list strings pretty gmap.

Set Warnings "-inexact-float,-register-all".

(** ** Python exceptions and results *)

Inductive exn_class :=
  | StopIteration
  | ValueError
  | IndexError
  | KeyError
  | OverflowError
  | AttributeError
  | RuntimeError.

(** [LookupError] is the common base class of [IndexError] and [KeyError]. *)
Definition is_LookupError (c : exn_class) : bool :=
  match c with
  | IndexError | KeyError => true
  | _ => false
  end.

Definition is_StopIteration (c : exn_class) : bool :=
  match c with
  | StopIteration => true
  | _ => false
  end.

(** Every class above derives from [Exception]. *)
Definition is_Exception (c : exn_class) : bool := true.

Record exception := Exc { exn_cls : exn_class; exn_msg : string }.

Inductive result (A : Type) :=
  | Ok (a : A)
  | Raise (e : exception).
Arguments Ok {A} a.
Arguments Raise {A} e.

(** ** Statements: state and exceptions

    A statement runs on a state [S]; when it raises, the state reached so far
    is kept, as the mutations of a Python object are. *)

Definition M (S A : Type) : Type := S → result A * S.

#[export] Instance M_ret {S} : MRet (M S) := λ A a s, (Ok a, s).

#[export] Instance M_bind {S} : MBind (M S) := λ A B f m s,
  match m s with
  | (Ok a, s') => f a s'
  | (Raise e, s') => (Raise e, s')
  end.

Definition raise {S A} (e : exception) : M S A := λ s, (Raise e, s).
Definition get {S} : M S S := λ s, (Ok s, s).
Definition modify {S} (f : S → S) : M S unit := λ s, (Ok tt, f s).

(** The value or the exception of an expression without effect. *)
Definition lift {S A} (r : result A) : M S A := λ s, (r, s).

(** [try: body / except <classes>: handler]. *)
Definition try_except {S A} (body : M S A) (catches : exn_class → bool)
    (handler : exception → M S A) : M S A := λ s,
  match body s with
  | (Ok a, s') => (Ok a, s')
  | (Raise e, s') => if catches (exn_cls e) then handler e s' else (Raise e, s')
  end.

(** [for x in xs: body x]. *)
Fixpoint for_each {S A} (xs : list A) (body : A → M S unit) : M S unit :=
  match xs with
  | [] => mret tt
  | x :: xs' => body x ;; for_each xs' body
  end.

(** ** Lists, as Python indexes and searches them *)

(** [l[i]] for [0 <= i]. *)
Definition py_getitem {A} (l : list A) (i : nat) : result A :=
  match l !! i with
  | Some x => Ok x
  | None => Raise (Exc IndexError "list index out of range")
  end.

(** [s[key]] for an integer [key] on a pandas Series whose index is the
    default one, the integers from [0] to [len(s) - 1]: the key is a label
    of the index, not a position, so that a negative key is not counted from
    the end; a label that the index does not hold raises [KeyError(key)]. *)
Definition Series_getitem {A} (s : list A) (key : Z) : result A :=
  match (if (0 <=? key)%Z then s !! Z.to_nat key else None) with
  | Some x => Ok x
  | None => Raise (Exc KeyError (pretty key))
  end.

(** [next(k for k, value in enumerate(l) if cond k value)], counting from
    [k]: the first position whose item passes, [StopIteration] when the
    generator is exhausted. *)
Fixpoint next_index {A} (cond : nat → A → bool) (k : nat) (l : list A) : result nat :=
  match l with
  | [] => Raise (Exc StopIteration "")
  | x :: l' => if cond k x then Ok k else next_index cond (S k) l'
  end.

(** An item of a list of floats as an object: the slot it was taken from and
    its value.  [min] returns one of the list's own objects, and
    [list.index] compares by identity before it compares by [==]; a NaN is
    found again only through its identity. *)
Record item := Item { item_slot : nat; item_val : float }.

(** The loop of [min(l)]: the first item is kept until a later one is
    strictly smaller ([item < best]). *)
Fixpoint min_loop (best : item) (k : nat) (l : list float) : item :=
  match l with
  | [] => best
  | x :: l' => min_loop (if (x <? item_val best)%float then Item k x else best) (S k) l'
  end.

(** [min(l)]; the message on an empty list is that of CPython up to 3.11. *)
Definition py_min (l : list float) : result item :=
  match l with
  | [] => Raise (Exc ValueError "min() arg is an empty sequence")
  | x :: l' => Ok (min_loop (Item 0 x) 1 l')
  end.

(** The loop of [l.index(v)], counting from [k]: the first item that is [v]
    or equals [v]; the message, which names the value, is cut short. *)
Fixpoint index_loop (v : item) (k : nat) (l : list float) : result nat :=
  match l with
  | [] => Raise (Exc ValueError "x not in list")
  | x :: l' =>
      if (k =? item_slot v)%nat || (x =? item_val v)%float then Ok k
      else index_loop v (S k) l'
  end.

Definition py_index (l : list float) (v : item) : result nat := index_loop v 0 l.

(** [l.index(min(l))]. *)
Definition index_of_min (l : list float) : result nat :=
  match py_min l with
  | Ok v => py_index l v
  | Raise e => Raise e
  end.

(** ** Truthiness *)

(** [bool(x)] of a float: every float but the two zeros, NaN included. *)
Definition float_truthy (x : float) : bool := negb (x =? 0)%float.

(** [bool(s)] of a string. *)
Definition str_truthy (s : string) : bool :=
  match s with
  | EmptyString => false
  | _ => true
  end.

(** [bool(v)] of a value that may be [None]. *)
Definition opt_truthy {A} (truthy : A → bool) (v : option A) : bool :=
  match v with
  | Some x => truthy x
  | None => false
  end.

(** ** The layer stack (gdsfactory) *)

(** A [LayerLevel] as [LayerStack.to_dict()] presents it, with the fields
    that [to_lbr] reads at their declared types. *)
Record LayerLevel := {
  layer : Z * Z;
  thickness : float;
  zmin : float;
  material : option string;
  sidewall_angle : float;
  layer_type : string;
  bias : option float;
  background_doping_concentration : option float;
  background_doping_ion : option string;
}.

(** [LayerStack.to_dict().items()]: the levels by name, in insertion order. *)
Definition LayerStack : Type := list (string * LayerLevel).

Definition PathType : Type := string.

(** ** gplugins/lumerical/utils.py *)

Module Utils.

Definition um : float := 1e-6.

(** The text of an attribute: a string, or the f-string of a float (the
    digits are Python's [repr], which is not reproduced here). *)
Inductive attr_value :=
  | Str (s : string)
  | FStr (x : float).

(** [xml.etree.ElementTree.Element]: tag, text, attributes in the order
    they were first set, children in the order they were appended. *)
Inductive Element :=
  | Elem (tag : string) (text : option string)
      (attrib : list (string * attr_value)) (children : list Element).

(** [element.set(key, value)] on the attribute dict: an existing key keeps
    its place and takes the new value, a new key goes last. *)
Fixpoint set (attrib : list (string * attr_value)) (key : string) (value : attr_value)
    : list (string * attr_value) :=
  match attrib with
  | [] => [(key, value)]
  | (k, v) :: rest =>
      if String.eqb k key then (k, value) :: rest else (k, v) :: set rest key value
  end.

(** An element under construction: the attributes set so far. *)
Definition set_all (kvs : list (string * attr_value)) : list (string * attr_value) :=
  foldl (λ attrib kv, set attrib kv.1 kv.2) [] kvs.

Inductive log_record :=
  | warning_layer_type (layer_type layer_name : string).

(** What [to_lbr] reads and writes besides its arguments: the logger and the
    files written, newest last. *)
Record world := {
  log : list log_record;
  files : list (string * string * Element);
}.

Definition logger_warning (r : log_record) : M world unit :=
  modify (λ w, {| log := log w ++ [r]; files := files w |}).

(** [with open(path, "w") as f: f.write(xml)], the directory being
    writable; the content is the tree that [minidom] pretty-prints. *)
Definition write_file (dir name : string) (content : Element) : M world unit :=
  modify (λ w, {| log := log w; files := files w ++ [(dir, name, content)] |}).

(** [f'{a}:{b}'] of a layer's two numbers. *)
Definition layer_name_of (l : Z * Z) : string :=
  pretty l.1 +:+ ":" +:+ pretty l.2.

Section to_lbr.

(** [get_layer_stack()], the stack of the active PDK, and the directory of
    the module file. *)
Variable get_layer_stack : LayerStack.
Variable module_dir : string.

(** The first [if/elif] chain of the loop body. *)
Definition process_of (layer_name : string) (layer_info : LayerLevel) : M world string :=
  if String.eqb (layer_type layer_info) "grow" then mret "Grow"
  else if String.eqb (layer_type layer_info) "background" then mret "Background"
  else if String.eqb (layer_type layer_info) "doping" then mret "Implant"
  else
    logger_warning (warning_layer_type (layer_type layer_info) layer_name) ;;
    mret "Grow".

(** The attributes of the [layer] element of an optical or metal layer. *)
Definition optical_layer (material_map : gmap string string) (layer_name : string)
    (layer_info : LayerLevel) (process : string) : Element :=
  let attrib := set_all [
    ("enabled", Str "1");
    ("pattern_alpha", Str "0.8");
    ("start_position_auto", Str "0");
    ("background_alpha", Str "0.3");
    ("pattern_material_index", Str "0");
    ("material_index", Str "0");
    ("name", Str layer_name);
    ("layer_name", Str (layer_name_of (layer layer_info)));
    ("start_position", FStr (zmin layer_info * um));
    ("thickness", FStr (thickness layer_info * um));
    ("start_position", FStr (zmin layer_info * um));
    ("process", Str process);
    ("sidewall_angle", FStr (90 - sidewall_angle layer_info));
    ("pattern_growth_delta",
       if opt_truthy float_truthy (bias layer_info)
       then FStr (default 0%float (bias layer_info) * um)
       else Str "0")
  ] in
  let material_name :=
    default "" (material layer_info ≫= λ m, material_map !! m) in
  let attrib :=
    if String.eqb process "Grow" then set attrib "pattern_material" (Str material_name)
    else if String.eqb process "Background" then set attrib "material" (Str material_name)
    else attrib in
  Elem "layer" None attrib [].

(** The [layer] element of a doping layer; the dopant is checked after the
    first six attributes are set. *)
Definition doping_layer (layer_name : string) (layer_info : LayerLevel)
    (process : string) : result Element :=
  let ion := default "" (background_doping_ion layer_info) in
  let attrib := set_all [
    ("z_surface_positions", FStr (zmin layer_info * um));
    ("distribution_function", Str "Gaussian");
    ("phi", Str "0");
    ("lateral_scatter", Str "2e-08");
    ("range", FStr (thickness layer_info * um));
    ("theta", Str "0")
  ] in
  if String.eqb ion "n" || String.eqb ion "p" then
    let attrib := foldl (λ attrib kv, set attrib kv.1 kv.2) (set attrib "dopant" (Str ion)) [
      ("mask_layer_number", Str (layer_name_of (layer layer_info)));
      ("kurtosis", Str "0");
      ("process", Str process);
      ("skewness", Str "0");
      ("straggle", Str "4.9999999999999998e-08");
      ("concentration", FStr (default 0%float (background_doping_concentration layer_info)));
      ("enabled", Str "1");
      ("name", Str (layer_name +:+ "_doping"))
    ] in
    Ok (Elem "layer" None attrib [])
  else
    Raise (Exc ValueError
             ("Dopant must be " +:+ String "034" "p" +:+ String "034" " or "
              +:+ String "034" "n" +:+ String "034" ". Got " +:+ ion +:+ ".")).

(** The two conditions that guard the creation of a doping layer. *)
Definition is_doped (layer_info : LayerLevel) : bool :=
  opt_truthy float_truthy (background_doping_concentration layer_info)
  && opt_truthy str_truthy (background_doping_ion layer_info).

(** The body of [for layer_name, layer_info in layerstack.to_dict().items()],
    on the children of [layers] and of [doping_layers]. *)
Definition layer_step (material_map : gmap string string)
    (acc : list Element * list Element) (entry : string * LayerLevel)
    : M world (list Element * list Element) :=
  let '(layer_name, layer_info) := entry in
  process ← process_of layer_name layer_info;
  let layers :=
    if String.eqb process "Grow" || String.eqb process "Background"
    then acc.1 ++ [optical_layer material_map layer_name layer_info process]
    else acc.1 in
  if String.eqb process "Implant" || String.eqb process "Background" then
    if is_doped layer_info then
      d ← lift (doping_layer layer_name layer_info process);
      mret (layers, acc.2 ++ [d])
    else mret (layers, acc.2)
  else mret (layers, acc.2).

Fixpoint layer_loop (material_map : gmap string string)
    (acc : list Element * list Element) (entries : LayerStack)
    : M world (list Element * list Element) :=
  match entries with
  | [] => mret acc
  | entry :: rest =>
      acc' ← layer_step material_map acc entry;
      layer_loop material_map acc' rest
  end.

(** [to_lbr(material_map, layerstack, dirpath)]: returns the directory and
    the name of the process file. *)
Definition to_lbr (material_map : gmap string string) (layerstack : option LayerStack)
    (dirpath : option PathType) : M world (string * string) :=
  let layerstack := default get_layer_stack layerstack in
  acc ← layer_loop material_map ([], []) layerstack;
  let process_name := Elem "process_name" (Some "process") [] [] in
  let layers := Elem "layers" None [] acc.1 in
  let doping_layers := Elem "doping_layers" None [] acc.2 in
  let layer_builder :=
    Elem "layer_builder" None []
      (if (length acc.2 =? 0)%nat then [process_name; layers]
       else [process_name; layers; doping_layers]) in
  let process_file_path :=
    if opt_truthy str_truthy dirpath then (default "" dirpath, "process.lbr")
    else (module_dir, "process.lbr") in
  write_file process_file_path.1 process_file_path.2 layer_builder ;;
  mret process_file_path.

End to_lbr.

(** The process that the loop assigns to a layer, without the warning. *)
Definition process_name (layer_info : LayerLevel) : string :=
  if String.eqb (layer_type layer_info) "grow" then "Grow"
  else if String.eqb (layer_type layer_info) "background" then "Background"
  else if String.eqb (layer_type layer_info) "doping" then "Implant"
  else "Grow".

(** A layer under a Background or Implant process, with a truthy doping
    concentration and a truthy doping ion, whose ion is neither "n" nor "p". *)
Definition invalid_dopant (layer_info : LayerLevel) : bool :=
  (String.eqb (process_name layer_info) "Implant"
   || String.eqb (process_name layer_info) "Background")
  && is_doped layer_info
  && negb (String.eqb (default "" (background_doping_ion layer_info)) "n"
           || String.eqb (default "" (background_doping_ion layer_info)) "p").

(** The layer gets a [layer] element under [layers]. *)
Definition is_optical (layer_info : LayerLevel) : bool :=
  String.eqb (process_name layer_info) "Grow"
  || String.eqb (process_name layer_info) "Background".

(** The layer gets a [layer] element under [doping_layers]. *)
Definition has_doping_layer (layer_info : LayerLevel) : bool :=
  (String.eqb (process_name layer_info) "Implant"
   || String.eqb (process_name layer_info) "Background")
  && is_doped layer_info.

(** The layer type is one of the three that the loop knows. *)
Definition is_supported (layer_info : LayerLevel) : bool :=
  String.eqb (layer_type layer_info) "grow"
  || String.eqb (layer_type layer_info) "background"
  || String.eqb (layer_type layer_info) "doping".

(** The warnings of the layers of unsupported type, in the order of the
    stack. *)
Definition warnings (entries : list (string * LayerLevel)) : list log_record :=
  (λ entry : string * LayerLevel, warning_layer_type (layer_type entry.2) entry.1)
    <$> filter (λ entry : string * LayerLevel, is_supported entry.2 = false) entries.

(** The message of the [ValueError] for an ion. *)
Definition dopant_message (ion : string) : string :=
  "Dopant must be " +:+ String "034" "p" +:+ String "034" " or "
  +:+ String "034" "n" +:+ String "034" ". Got " +:+ ion +:+ ".".

(** The tree of the process file for the children of [layers] and of
    [doping_layers]. *)
Definition layer_builder_of (layers doping_layers : list Element) : Element :=
  Elem "layer_builder" None []
    (Elem "process_name" (Some "process") [] []
     :: Elem "layers" None [] layers
     :: match doping_layers with
        | [] => []
        | _ => [Elem "doping_layers" None [] doping_layers]
        end).

(** A level of the given type and doping, for examples. *)
Definition level (type : string) (concentration : option float) (ion : option string)
    : LayerLevel := {|
  layer := (1, 0)%Z;
  thickness := 0.22;
  zmin := 0;
  material := Some "si";
  sidewall_angle := 2;
  layer_type := type;
  bias := None;
  background_doping_concentration := concentration;
  background_doping_ion := ion;
|}.

(** A stack of a core that is grown, a cladding doped with "p" and an
    implant whose ion is named in full. *)
Definition boron_stack : LayerStack :=
  [("core", level "grow" None None);
   ("clad", level "background" (Some 1e14%float) (Some "p"));
   ("well", level "doping" (Some 1e14%float) (Some "Boron"))].

(** A stack of a core that is grown and a trench whose layer type the loop
    does not know. *)
Definition etch_stack : LayerStack :=
  [("core", level "grow" None None); ("trench", level "etch" None None)].

End Utils.

(** ** gplugins/lumerical/recipes/taper_design_recipe.py *)

Module Recipe.

Definition um : float := 1e-6.
Definition cm : float := 1e-2.

(** A complex S-parameter. *)
Record complex := { re : float; im : float }.

(** One row of a length sweep, with the columns that [eval] reads. *)
Record sample := {
  col_length : float;
  col_s21 : complex;
  col_s11 : complex;
}.

(** Modelled from the spec: the table that [get_length_sweep] returns (the
    simulation adapter, gplugins/lumerical/eme.py, is not part of the
    sources at hand): an ordered sequence of (length, s11, s21) samples, as
    a [pandas.DataFrame] with the index that a frame has when none is set,
    the integers from [0] to [n - 1].  The k-th item of each column is the
    field of the k-th row; a column taken with [.loc[:, name]] is a Series
    with the index of the frame, read with [Series_getitem]. *)
Definition DataFrame : Type := list sample.

Record RoutingTaperDesignIntent := {
  narrow_waveguide_routing_loss_per_cm : float;
  max_reflection : float;
  start_length : float;
  stop_length : float;
  num_pts : Z;
}.

(** The defaults of the class. *)
Definition default_intent : RoutingTaperDesignIntent := {|
  narrow_waveguide_routing_loss_per_cm := 3;
  max_reflection := -70;
  start_length := 1;
  stop_length := 200;
  num_pts := 200;
|}.

(** The keyword arguments that [eval] passes to every simulation besides
    the component, the maps and the settings. *)
Record sim_flags := {
  hide : bool;
  run_overall_convergence : bool;
  run_mesh_convergence : bool;
  run_mode_convergence : bool;
  run_cell_convergence : bool;
}.

(** What the recipe calls but does not define: gdsfactory's components and
    width types, the Lumerical EME session, numpy's logarithm, pydantic's
    JSON dump, hashlib's SHA-1 and the hash of the superclass. *)
Class Collaborators := {
  Component : Type;
  CrossSectionSpec : Type;
  SimulationSettingsLumericalEme : Type;
  ConvergenceSettingsLumericalEme : Type;
  LumericalEmeSimulation : Type;
  (** [typing.get_args(WidthTypes)] *)
  WidthTypes : list string;
  (** the constructor [LumericalEmeSimulation(...)], which may raise *)
  new_LumericalEmeSimulation :
    Component → option (gmap string string) → LayerStack →
    option SimulationSettingsLumericalEme → option ConvergenceSettingsLumericalEme →
    sim_flags → PathType → result LumericalEmeSimulation;
  (** [sim.get_length_sweep(start_length, stop_length, num_pts)] *)
  get_length_sweep : LumericalEmeSimulation → float → float → Z → result DataFrame;
  (** [10 * np.log10(abs(s) ** 2)] *)
  dB : complex → float;
  (** [model_dump_json()] of the two settings and of the design intent *)
  simulation_dump_json : SimulationSettingsLumericalEme → string;
  convergence_dump_json : ConvergenceSettingsLumericalEme → string;
  intent_dump_json : RoutingTaperDesignIntent → string;
  (** [hashlib.sha1(data).digest()] *)
  sha1_digest : list byte → list byte;
  (** [DesignRecipe.__hash__] (gplugins/design_recipe/DesignRecipe.py, not
      part of the sources at hand): a digest of the cell, the material map and
      the layer stack *)
  DesignRecipe_hash :
    (CrossSectionSpec → CrossSectionSpec → float → string → Component) →
    option (gmap string string) → LayerStack → Z;
}.

Section recipe.
Context {env : Collaborators}.

Definition ComponentFactory : Type :=
  CrossSectionSpec → CrossSectionSpec → float → string → Component.

(** The attributes of a [RoutingTaperDesignRecipe] object. *)
Record RoutingTaperDesignRecipe := {
  cell : ComponentFactory;
  material_map : option (gmap string string);
  layer_stack : LayerStack;
  cross_section1 : CrossSectionSpec;
  cross_section2 : CrossSectionSpec;
  dirpath : PathType;
  design_intent : RoutingTaperDesignIntent;
  simulation_setup : option SimulationSettingsLumericalEme;
  convergence_setup : option ConvergenceSettingsLumericalEme;
  component : option Component;
  length_sweep : option DataFrame;
  last_hash : option Z;
}.

Definition set_last_hash (h : Z) (r : RoutingTaperDesignRecipe) := {|
  cell := cell r; material_map := material_map r; layer_stack := layer_stack r;
  cross_section1 := cross_section1 r; cross_section2 := cross_section2 r;
  dirpath := dirpath r; design_intent := design_intent r;
  simulation_setup := simulation_setup r; convergence_setup := convergence_setup r;
  component := component r; length_sweep := length_sweep r;
  last_hash := Some h |}.

Definition set_component (c : Component) (r : RoutingTaperDesignRecipe) := {|
  cell := cell r; material_map := material_map r; layer_stack := layer_stack r;
  cross_section1 := cross_section1 r; cross_section2 := cross_section2 r;
  dirpath := dirpath r; design_intent := design_intent r;
  simulation_setup := simulation_setup r; convergence_setup := convergence_setup r;
  component := Some c; length_sweep := length_sweep r;
  last_hash := last_hash r |}.

Definition set_length_sweep (t : DataFrame) (r : RoutingTaperDesignRecipe) := {|
  cell := cell r; material_map := material_map r; layer_stack := layer_stack r;
  cross_section1 := cross_section1 r; cross_section2 := cross_section2 r;
  dirpath := dirpath r; design_intent := design_intent r;
  simulation_setup := simulation_setup r; convergence_setup := convergence_setup r;
  component := component r; length_sweep := Some t;
  last_hash := last_hash r |}.

(** *** [__hash__] *)

(** [n.bit_length()] *)
Definition bit_length (n : Z) : Z :=
  if (n =? 0)%Z then 0%Z else (Z.log2 (Z.abs n) + 1)%Z.

Definition byte_of_Z (n : Z) : byte :=
  default x00 (Byte.of_N (Z.to_N (n mod 256))).

(** The [len] lowest bytes of [n], lowest first. *)
Fixpoint little_endian (len : nat) (n : Z) : list byte :=
  match len with
  | O => []
  | S len' => byte_of_Z n :: little_endian len' (n / 256)
  end.

(** [n.to_bytes(len, byteorder="big")], unsigned. *)
Definition to_bytes (n len : Z) : result (list byte) :=
  if (n <? 0)%Z then
    Raise (Exc OverflowError "can't convert negative int to unsigned")
  else if (256 ^ len <=? n)%Z then
    Raise (Exc OverflowError "int too big to convert")
  else Ok (rev (little_endian (Z.to_nat len) n)).

(** [int.from_bytes(b, "big")] *)
Definition from_bytes (b : list byte) : Z :=
  foldl (λ acc x, (acc * 256 + Z.of_N (Byte.to_N x))%Z) 0%Z b.

(** [s.encode("utf-8")]: a string is held as its UTF-8 bytes. *)
Definition encode (s : string) : list byte := list_byte_of_string s.

(** [obj.model_dump_json()] on an attribute that may be [None]. *)
Definition dump_json {A} (dump : A → string) (obj : option A) : result string :=
  match obj with
  | Some x => Ok (dump x)
  | None =>
      Raise (Exc AttributeError "'NoneType' object has no attribute 'model_dump_json'")
  end.

Definition result_bind {A B} (r : result A) (f : A → result B) : result B :=
  match r with
  | Ok a => f a
  | Raise e => Raise e
  end.

(** [RoutingTaperDesignRecipe.__hash__]; the length given to [to_bytes] is
    [int_hash.bit_length() + 7 // 8], as the source writes it. *)
Definition __hash__ (self : RoutingTaperDesignRecipe) : result Z :=
  let int_hash := DesignRecipe_hash (cell self) (material_map self) (layer_stack self) in
  result_bind (to_bytes int_hash (bit_length int_hash + 7 / 8)) (λ b0,
  result_bind (dump_json simulation_dump_json (simulation_setup self)) (λ j1,
  result_bind (dump_json convergence_dump_json (convergence_setup self)) (λ j2,
  let j3 := intent_dump_json (design_intent self) in
  Ok (from_bytes (sha1_digest (b0 ++ encode j1 ++ encode j2 ++ encode j3)))))).

(** The hash of an [int] (CPython, 64-bit): the residue modulo [2^61 - 1]
    with the sign of the number, [-1] being reserved. *)
Definition long_hash (n : Z) : Z :=
  let h := (Z.sgn n * (Z.abs n mod (2 ^ 61 - 1)))%Z in
  if (h =? -1)%Z then (-2)%Z else h.

(** [hash(self)]: the value of [__hash__] when it fits a [Py_ssize_t], its
    [int] hash otherwise; [-1] is reserved. *)
Definition hash (self : RoutingTaperDesignRecipe) : result Z :=
  result_bind (__hash__ self) (λ res,
  let h := if ((- 2 ^ 63 <=? res) && (res <? 2 ^ 63))%Z then res else long_hash res in
  Ok (if (h =? -1)%Z then (-2)%Z else h)).

(** *** [eval] *)

Inductive log_record :=
  (** [logger.error(f"{err}\n{component.name} failed to simulate. ...")] *)
  | error_failed_to_simulate (err : exception) (component : Component)
  (** [logger.warning(f"{component.name} cannot achieve specified routing
      loss of -{loss}dB/cm. Use maximal length of {stop_length}um.")] *)
  | warning_routing_loss (component : Component) (loss stop : float)
  (** [logger.info(f"{results}")]: per key, the component that names it and
      the L, T and R of its value, in insertion order *)
  | info_results (results : list (Component * float * float * float)).

(** The local variables of [eval] that the loop reads and appends to. *)
Record frame := {
  components : list Component;
  optimal_lengths : list float;
  transmission_coefficients : list float;
  reflection_coefficients : list float;
  simulated_components : list Component;
  sims : list LumericalEmeSimulation;
  length_sweeps : list DataFrame;
}.

Definition new_frame (cs : list Component) : frame := {|
  components := cs;
  optimal_lengths := [];
  transmission_coefficients := [];
  reflection_coefficients := [];
  simulated_components := [];
  sims := [];
  length_sweeps := [];
|}.

(** The state [eval] runs on: the recipe object, the logger, the locals. *)
Record world := {
  self : RoutingTaperDesignRecipe;
  log : list log_record;
  locals : frame;
}.

Definition on_self (f : RoutingTaperDesignRecipe → RoutingTaperDesignRecipe) : M world unit :=
  modify (λ w, {| self := f (self w); log := log w; locals := locals w |}).

Definition on_locals (f : frame → frame) : M world unit :=
  modify (λ w, {| self := self w; log := log w; locals := f (locals w) |}).

Definition logger (r : log_record) : M world unit :=
  modify (λ w, {| self := self w; log := log w ++ [r]; locals := locals w |}).

Definition optimal_lengths_append (x : float) : M world unit :=
  on_locals (λ f, {|
    components := components f;
    optimal_lengths := optimal_lengths f ++ [x];
    transmission_coefficients := transmission_coefficients f;
    reflection_coefficients := reflection_coefficients f;
    simulated_components := simulated_components f;
    sims := sims f; length_sweeps := length_sweeps f |}).

Definition transmission_coefficients_append (x : float) : M world unit :=
  on_locals (λ f, {|
    components := components f;
    optimal_lengths := optimal_lengths f;
    transmission_coefficients := transmission_coefficients f ++ [x];
    reflection_coefficients := reflection_coefficients f;
    simulated_components := simulated_components f;
    sims := sims f; length_sweeps := length_sweeps f |}).

Definition reflection_coefficients_append (x : float) : M world unit :=
  on_locals (λ f, {|
    components := components f;
    optimal_lengths := optimal_lengths f;
    transmission_coefficients := transmission_coefficients f;
    reflection_coefficients := reflection_coefficients f ++ [x];
    simulated_components := simulated_components f;
    sims := sims f; length_sweeps := length_sweeps f |}).

Definition simulated_components_append (x : Component) : M world unit :=
  on_locals (λ f, {|
    components := components f;
    optimal_lengths := optimal_lengths f;
    transmission_coefficients := transmission_coefficients f;
    reflection_coefficients := reflection_coefficients f;
    simulated_components := simulated_components f ++ [x];
    sims := sims f; length_sweeps := length_sweeps f |}).

Definition sims_append (x : LumericalEmeSimulation) : M world unit :=
  on_locals (λ f, {|
    components := components f;
    optimal_lengths := optimal_lengths f;
    transmission_coefficients := transmission_coefficients f;
    reflection_coefficients := reflection_coefficients f;
    simulated_components := simulated_components f;
    sims := sims f ++ [x]; length_sweeps := length_sweeps f |}).

Definition length_sweeps_append (x : DataFrame) : M world unit :=
  on_locals (λ f, {|
    components := components f;
    optimal_lengths := optimal_lengths f;
    transmission_coefficients := transmission_coefficients f;
    reflection_coefficients := reflection_coefficients f;
    simulated_components := simulated_components f;
    sims := sims f; length_sweeps := length_sweeps f ++ [x] |}).

(** The state after the three appends of one candidate's optimum. *)
Definition with_optimum (w : world) (L T R : float) : world := {|
  self := self w;
  log := log w;
  locals := {|
    components := components (locals w);
    optimal_lengths := optimal_lengths (locals w) ++ [L];
    transmission_coefficients := transmission_coefficients (locals w) ++ [T];
    reflection_coefficients := reflection_coefficients (locals w) ++ [R];
    simulated_components := simulated_components (locals w);
    sims := sims (locals w);
    length_sweeps := length_sweeps (locals w) |} |}.

(** The state after a simulation was built and its sweep was stored. *)
Definition with_simulation (w : world) (sim : LumericalEmeSimulation)
    (component : Component) (table : DataFrame) : world := {|
  self := self w;
  log := log w;
  locals := {|
    components := components (locals w);
    optimal_lengths := optimal_lengths (locals w);
    transmission_coefficients := transmission_coefficients (locals w);
    reflection_coefficients := reflection_coefficients (locals w);
    simulated_components := simulated_components (locals w) ++ [component];
    sims := sims (locals w) ++ [sim];
    length_sweeps := length_sweeps (locals w) ++ [table] |} |}.

(** The state after one more record is logged. *)
Definition with_log (w : world) (r : log_record) : world :=
  {| self := self w; log := log w ++ [r]; locals := locals w |}.

Definition eval_flags : sim_flags := {|
  hide := false;
  run_overall_convergence := true;
  run_mesh_convergence := false;
  run_mode_convergence := true;
  run_cell_convergence := false;
|}.

(** The two dB columns of a row: [s21] and [s11] of the source. *)
Definition s21_dB (row : sample) : float := dB (col_s21 row).
Definition s11_dB (row : sample) : float := dB (col_s11 row).

(** The condition of the generator at row [k]:
    [value > -di.narrow_waveguide_routing_loss_per_cm * length[k] / cm]. *)
Definition below_routing_loss (di : RoutingTaperDesignIntent) (row : sample) : bool :=
  (((- narrow_waveguide_routing_loss_per_cm di) * col_length row) / cm <? s21_dB row)%float.

(** The [try/except StopIteration] block of the loop body (the length that
    has lower loss than the routing loss). *)
Definition threshold_search (di : RoutingTaperDesignIntent) (component : Component)
    (length_sweep : DataFrame) : M world unit :=
  let length := col_length <$> length_sweep in
  let s21 := s21_dB <$> length_sweep in
  let s11 := s11_dB <$> length_sweep in
  try_except
    (ind ← lift (next_index (λ _, below_routing_loss di) 0 length_sweep);
     len ← lift (Series_getitem length (Z.of_nat ind));
     optimal_lengths_append (len / um)%float ;;
     t ← lift (Series_getitem s21 (Z.of_nat ind));
     transmission_coefficients_append t ;;
     r ← lift (Series_getitem s11 (Z.of_nat ind));
     reflection_coefficients_append r)
    is_StopIteration
    (λ _,
     logger (warning_routing_loss component
               (narrow_waveguide_routing_loss_per_cm di) (stop_length di)) ;;
     optimal_lengths_append (stop_length di) ;;
     t ← lift (Series_getitem s21 (-1));
     transmission_coefficients_append t ;;
     r ← lift (Series_getitem s11 (-1));
     reflection_coefficients_append r).

(** The body of [for component in components]. *)
Definition loop_body (ss : option SimulationSettingsLumericalEme)
    (cs : option ConvergenceSettingsLumericalEme) (di : RoutingTaperDesignIntent)
    (component : Component) : M world unit :=
  w ← get;
  simulated ←
    try_except
      (sim ← lift (new_LumericalEmeSimulation component (material_map (self w))
                     (layer_stack (self w)) ss cs eval_flags (dirpath (self w)));
       sims_append sim ;;
       simulated_components_append component ;;
       mret (Some sim))
      is_Exception
      (λ err,
       logger (error_failed_to_simulate err component) ;;
       mret None);
  match simulated with
  | None => mret tt
  | Some sim =>
      length_sweep ← lift (get_length_sweep sim (start_length di) (stop_length di)
                             (num_pts di));
      length_sweeps_append length_sweep ;;
      threshold_search di component length_sweep
  end.

(** The entry of [results] for position [i]. *)
Definition results_entry (f : frame) (i : nat) : result (Component * float * float * float) :=
  result_bind (py_getitem (components f) i) (λ c,
  result_bind (py_getitem (optimal_lengths f) i) (λ L,
  result_bind (py_getitem (transmission_coefficients f) i) (λ T,
  result_bind (py_getitem (reflection_coefficients f) i) (λ R,
  Ok (c, L, T, R))))).

(** [ind1 == ind2 or (reflection_coefficients[ind1] < di.max_reflection)] *)
Definition shortest_is_acceptable (di : RoutingTaperDesignIntent) (f : frame)
    (ind1 ind2 : nat) : result bool :=
  if (ind1 =? ind2)%nat then Ok true
  else result_bind (py_getitem (reflection_coefficients f) ind1) (λ r,
       Ok (r <? max_reflection di)%float).

(** The component and the sweep data of one branch of the selection. *)
Definition select (r : RoutingTaperDesignRecipe) (f : frame) (ind : nat)
    : result (Component * DataFrame) :=
  result_bind (py_getitem (optimal_lengths f) ind) (λ L,
  result_bind (py_getitem WidthTypes ind) (λ wtype,
  result_bind (py_getitem (length_sweeps f) ind) (λ data,
  Ok (cell r (cross_section1 r) (cross_section2 r) L wtype, data)))).

(** The part of [eval] under the comment "Sweep geometry": the candidate
    components, one per width type, and the loop over them. *)
Definition sweep_geometry : M world unit :=
  w ← get;
  let ss := simulation_setup (self w) in
  let cs := convergence_setup (self w) in
  let di := design_intent (self w) in
  on_locals (λ _, new_frame
    ((λ wtype, cell (self w) (cross_section1 (self w)) (cross_section2 (self w)) 5%float wtype)
       <$> WidthTypes)) ;;
  w ← get;
  for_each (components (locals w)) (loop_body ss cs di).

(** The part of [eval] from the [results] that are logged to the end: "Get
    best component" and "Save results". *)
Definition get_best_component : M world unit :=
  w ← get;
  let di := design_intent (self w) in
  let f := locals w in
  results ← mapM (λ i, lift (results_entry f i)) (seq 0 (length (simulated_components f)));
  logger (info_results results) ;;
  ind1 ← lift (index_of_min (optimal_lengths f));
  ind2 ← lift (index_of_min (reflection_coefficients f));
  shortest ← lift (shortest_is_acceptable di f ind1 ind2);
  best ← lift (if shortest : bool then select (self w) f ind1 else select (self w) f ind2);
  on_self (set_component best.1) ;;
  on_self (set_length_sweep best.2).

(** The body of [RoutingTaperDesignRecipe.eval], under its decorator. *)
Definition eval : M world unit :=
  w ← get;
  h ← lift (hash (self w));
  on_self (set_last_hash h) ;;
  sweep_geometry ;;
  get_best_component.

End recipe.

End Recipe.

(** ** SHA-1 (FIPS 180-4), the digest that the bench gives to [sha1_digest] *)

Module Sha1.
#[local] Open Scope Z_scope.

Definition word (x : Z) : Z := x mod 2 ^ 32.
Definition rotl (n x : Z) : Z := word (Z.lor (Z.shiftl x n) (Z.shiftr x (32 - n))).

(** The [len] lowest bytes of [x], highest first. *)
Definition be_bytes (len : nat) (x : Z) : list Z :=
  rev ((λ i, Z.shiftr x (8 * Z.of_nat i) mod 256) <$> seq 0 len).

(** The message followed by the bit 1, zeros up to 56 modulo 64 bytes, and
    the length of the message in bits on eight bytes. *)
Definition pad (msg : list Z) : list Z :=
  let n := Z.of_nat (length msg) in
  msg ++ [128] ++ replicate (Z.to_nat ((55 - n) mod 64)) 0 ++ be_bytes 8 (8 * n).

Definition be_word (b : list Z) : Z := foldl (λ acc x, acc * 256 + x) 0 b.

(** The words of one block, and the blocks of a padded message. *)
Fixpoint chunks {A} (fuel size : nat) (l : list A) : list (list A) :=
  match fuel, l with
  | Datatypes.S fuel', _ :: _ => take size l :: chunks fuel' size (drop size l)
  | _, _ => []
  end.

(** The schedule: words 16 to 79 from the four words before. *)
Fixpoint schedule (n : nat) (w : list Z) : list Z :=
  match n with
  | O => w
  | Datatypes.S n' =>
      let t := length w in
      let at_ i := default 0 (w !! (t - i)%nat) in
      schedule n' (w ++ [rotl 1 (Z.lxor (Z.lxor (at_ 3%nat) (at_ 8%nat))
                                   (Z.lxor (at_ 14%nat) (at_ 16%nat)))])
  end.

Definition state : Type := Z * Z * Z * Z * Z.

Definition round (s : state) (tw : nat * Z) : state :=
  let '(a, b, c, d, e) := s in
  let '(t, w) := tw in
  let '(f, k) :=
    if (t <? 20)%nat then (Z.lor (Z.land b c) (Z.land (Z.lxor b (2 ^ 32 - 1)) d), 0x5A827999)
    else if (t <? 40)%nat then (Z.lxor (Z.lxor b c) d, 0x6ED9EBA1)
    else if (t <? 60)%nat then
      (Z.lor (Z.lor (Z.land b c) (Z.land b d)) (Z.land c d), 0x8F1BBCDC)
    else (Z.lxor (Z.lxor b c) d, 0xCA62C1D6) in
  (word (rotl 5 a + f + e + k + w), a, rotl 30 b, c, d).

Definition block (h : state) (bytes : list Z) : state :=
  let w := schedule 64 (be_word <$> chunks 16 4 bytes) in
  let '(a, b, c, d, e) := foldl round h (imap (λ t x, (t, x)) w) in
  let '(h0, h1, h2, h3, h4) := h in
  (word (h0 + a), word (h1 + b), word (h2 + c), word (h3 + d), word (h4 + e)).

Definition init : state :=
  (0x67452301, 0xEFCDAB89, 0x98BADCFE, 0x10325476, 0xC3D2E1F0).

Definition digest_Z (msg : list Z) : list Z :=
  let padded := pad msg in
  let '(h0, h1, h2, h3, h4) := foldl block init (chunks (length padded) 64 padded) in
  be_bytes 4 h0 ++ be_bytes 4 h1 ++ be_bytes 4 h2 ++ be_bytes 4 h3 ++ be_bytes 4 h4.

Definition digest (msg : list byte) : list byte :=
  (λ x, default x00 (Byte.of_N (Z.to_N x))) <$> digest_Z ((λ b, Z.of_N (Byte.to_N b)) <$> msg).

End Sha1.

(** ** A bench of collaborators, to run the recipe on concrete sweeps *)

Module Bench.
Import Recipe.

(** A taper as the arguments of the cell that builds it. *)
Record taper := {
  taper_xs1 : string;
  taper_xs2 : string;
  taper_length : float;
  taper_width_type : string;
}.

(** A row whose S-parameters already hold dB values in their real parts. *)
Definition row (len t r : float) : sample :=
  {| col_length := len; col_s21 := {| re := t; im := 0 |}; col_s11 := {| re := r; im := 0 |} |}.

(** The bench: the width types of gdsfactory, a simulation that raises for
    the width types of [failing] and answers the sweep [tables wtype] for the
    others. *)
Definition bench (wtypes failing : list string) (tables : string → DataFrame)
    : Collaborators := {|
  Component := taper;
  CrossSectionSpec := string;
  SimulationSettingsLumericalEme := string;
  ConvergenceSettingsLumericalEme := string;
  LumericalEmeSimulation := taper;
  WidthTypes := wtypes;
  new_LumericalEmeSimulation := λ c _ _ _ _ _ _,
    if bool_decide (taper_width_type c ∈ failing)
    then Raise (Exc RuntimeError "solver failed")
    else Ok c;
  get_length_sweep := λ sim _ _ _, Ok (tables (taper_width_type sim));
  dB := re;
  simulation_dump_json := id;
  convergence_dump_json := id;
  intent_dump_json := λ di,
    "{" +:+ String "034" "num_pts" +:+ String "034" ":" +:+ pretty (num_pts di) +:+ "}";
  sha1_digest := Sha1.digest;
  DesignRecipe_hash := λ _ _ _, 0x123456789ABCDEF0%Z;
|}.

Definition gdsfactory_width_types : list string := ["sine"; "linear"; "parabolic"].

(** A recipe object before [eval], with the default design intent. *)
Definition fresh_recipe {env : Collaborators} (cell : ComponentFactory)
    (xs1 xs2 : CrossSectionSpec) (ss : option SimulationSettingsLumericalEme)
    (cs : option ConvergenceSettingsLumericalEme) : RoutingTaperDesignRecipe := {|
  cell := cell;
  material_map := None;
  layer_stack := [];
  cross_section1 := xs1;
  cross_section2 := xs2;
  dirpath := "runs";
  design_intent := default_intent;
  simulation_setup := ss;
  convergence_setup := cs;
  component := None;
  length_sweep := None;
  last_hash := None;
|}.

Definition fresh_world {env : Collaborators} (r : RoutingTaperDesignRecipe) : world :=
  {| self := r; log := []; locals := new_frame [] |}.

(** Three sweeps of three lengths from 1 um to 200 um, in metres: the first
    meets 3 dB/cm from its second row on, the second at its last row only,
    the third never. *)
Definition crossing_table : DataFrame :=
  [row (1 * um) (-1) (-40); row (100 * um) (-0.0001) (-80); row (200 * um) (-0.00001) (-85)].

Definition late_table : DataFrame :=
  [row (1 * um) (-1) (-40); row (100 * um) (-1) (-60); row (200 * um) (-0.00001) (-50)].

Definition flat_table : DataFrame :=
  [row (1 * um) (-1) (-40); row (100 * um) (-1) (-60); row (200 * um) (-1) (-50)].

Definition make_taper : string → string → float → string → taper := Build_taper.

(** The bench on gdsfactory's width types: [sine] cannot be simulated,
    [linear] gives the crossing sweep and [parabolic] the late one. *)
Definition sine_fails : Collaborators :=
  bench gdsfactory_width_types ["sine"]
    (λ wtype, if String.eqb wtype "linear" then crossing_table else late_table).

Definition sine_fails_recipe : @RoutingTaperDesignRecipe sine_fails :=
  @fresh_recipe sine_fails make_taper "narrow" "wide" (Some "{}") (Some "{}").

Definition sine_fails_world : @world sine_fails := fresh_world sine_fails_recipe.

(** The scenario of two candidates A (length 10, reflection -80 dB) and B
    (length 5, reflection -50 dB) under the default threshold of -70 dB, as
    the state that the loop would leave. *)
Definition candidate (wtype : string) : @Component sine_fails :=
  make_taper "narrow" "wide" 5 wtype.

Definition scenario_world : @world sine_fails := {|
  self := sine_fails_recipe;
  log := [];
  locals := {|
    components := candidate <$> gdsfactory_width_types;
    optimal_lengths := [10; 5]%float;
    transmission_coefficients := [-0.01; -0.02]%float;
    reflection_coefficients := [-80; -50]%float;
    simulated_components := [candidate "sine"; candidate "linear"];
    sims := [candidate "sine"; candidate "linear"];
    length_sweeps := [late_table; crossing_table] |} |}.

(** The bench on which no width type can be simulated. *)
Definition all_fail : Collaborators :=
  bench gdsfactory_width_types gdsfactory_width_types (λ _, []).

Definition all_fail_world : @world all_fail :=
  fresh_world (@fresh_recipe all_fail make_taper "narrow" "wide" (Some "{}") (Some "{}")).

(** The value of [hash(self)] on that bench. *)
Definition all_fail_hash : Z :=
  Eval vm_compute in
    match hash (self all_fail_world) with
    | Ok h => h
    | Raise _ => 0%Z
    end.

(** The recipe of the bench once it holds a result. *)
Definition evaluated_recipe : @RoutingTaperDesignRecipe sine_fails :=
  set_last_hash 7 (set_length_sweep crossing_table
                     (@set_component sine_fails (make_taper "narrow" "wide" 100 "linear")
                        sine_fails_recipe)).

(** The bench on which every simulation is built and every sweep is empty,
    and the one on which every simulation is built and every sweep raises. *)
Definition empty_sweeps : Collaborators :=
  bench gdsfactory_width_types [] (λ _, []).

Definition sweeps_raise : Collaborators := {|
  Component := taper;
  CrossSectionSpec := string;
  SimulationSettingsLumericalEme := string;
  ConvergenceSettingsLumericalEme := string;
  LumericalEmeSimulation := taper;
  WidthTypes := gdsfactory_width_types;
  new_LumericalEmeSimulation := λ c _ _ _ _ _ _, Ok c;
  get_length_sweep := λ _ _ _ _, Raise (Exc RuntimeError "sweep failed");
  dB := re;
  simulation_dump_json := id;
  convergence_dump_json := id;
  intent_dump_json := λ _, "{}";
  sha1_digest := Sha1.digest;
  DesignRecipe_hash := λ _ _ _, 0x123456789ABCDEF0%Z;
|}.

(** The bench on which every width type is simulated: [sine] and [parabolic]
    give the late sweep, [linear] the crossing one. *)
Definition all_built : Collaborators :=
  bench gdsfactory_width_types []
    (λ wtype, if String.eqb wtype "linear" then crossing_table else late_table).

(** The bench on which every width type is simulated and no sweep reaches
    the threshold. *)
Definition never_crosses : Collaborators :=
  bench gdsfactory_width_types [] (λ _, flat_table).

Definition never_crosses_world : @world never_crosses :=
  fresh_world (@fresh_recipe never_crosses make_taper "narrow" "wide" (Some "{}") (Some "{}")).

Definition all_built_world : @world all_built :=
  fresh_world (@fresh_recipe all_built make_taper "narrow" "wide" (Some "{}") (Some "{}")).

Definition empty_sweeps_world : @world empty_sweeps :=
  fresh_world (@fresh_recipe empty_sweeps make_taper "narrow" "wide" (Some "{}") (Some "{}")).

Definition sweeps_raise_world : @world sweeps_raise :=
  fresh_world (@fresh_recipe sweeps_raise make_taper "narrow" "wide" (Some "{}") (Some "{}")).

End Bench.

(** ** The vocabulary of the properties *)

Import Recipe.

Section vocabulary.
Context {env : Collaborators}.


(** The attributes that are not results: the configuration of the recipe. *)
Definition same_configuration (r r' : RoutingTaperDesignRecipe) : Prop :=
  cell r' = cell r
  ∧ material_map r' = material_map r
  ∧ layer_stack r' = layer_stack r
  ∧ cross_section1 r' = cross_section1 r
  ∧ cross_section2 r' = cross_section2 r
  ∧ dirpath r' = dirpath r
  ∧ design_intent r' = design_intent r
  ∧ simulation_setup r' = simulation_setup r
  ∧ convergence_setup r' = convergence_setup r.

(** A record of a candidate that failed to simulate. *)
Definition is_error (r : log_record) : Prop :=
  ∃ e c, r = error_failed_to_simulate e c.






(** A statement keeps the recipe object related by [R] to what it was,
    whether it ends normally or raises. *)
Definition preserves (R : RoutingTaperDesignRecipe → RoutingTaperDesignRecipe → Prop)
    {A} (m : M world A) : Prop :=
  ∀ w, R (self w) (self (m w).2).

(** The candidate components of a recipe, one per width type. *)
Definition candidates (r : RoutingTaperDesignRecipe) : list Component :=
  (λ wtype, cell r (cross_section1 r) (cross_section2 r) 5%float wtype) <$> WidthTypes.

(** The simulation of a candidate can be built. *)
Definition built (r : RoutingTaperDesignRecipe) (c : Component) : bool :=
  match new_LumericalEmeSimulation c (material_map r) (layer_stack r)
          (simulation_setup r) (convergence_setup r) eval_flags (dirpath r) with
  | Ok _ => true
  | Raise _ => false
  end.

(** The error that is logged for a candidate whose simulation cannot be
    built. *)
Definition failure_record (r : RoutingTaperDesignRecipe) (c : Component)
    : option log_record :=
  match new_LumericalEmeSimulation c (material_map r) (layer_stack r)
          (simulation_setup r) (convergence_setup r) eval_flags (dirpath r) with
  | Ok _ => None
  | Raise e => Some (error_failed_to_simulate e c)
  end.

Definition is_error_record (r : log_record) : bool :=
  match r with
  | error_failed_to_simulate _ _ => true
  | _ => false
  end.

(** What a threshold search that ends normally finds in a table: the triple
    of the first row above the threshold. *)
Definition searched (di : RoutingTaperDesignIntent) (table : DataFrame) (L T R : float)
    : Prop :=
  ∃ k row, table !! k = Some row
           ∧ below_routing_loss di row = true
           ∧ (∀ i r, i < k → table !! i = Some r → below_routing_loss di r = false)
           ∧ L = (col_length row / um)%float ∧ T = s21_dB row ∧ R = s11_dB row.

(** The state of the loop after the first [j] candidates of [comps]: the
    recipe object is [r0]; the log grew by [records], whose errors are those
    of the candidates that could not be built; the simulated components are
    the candidates that could; the result lists have one entry for each of
    them, found by the threshold search in the table next to it. *)
Definition sweep_state (r0 : RoutingTaperDesignRecipe) (log0 : list log_record)
    (comps : list Component) (j : nat) (w : world) : Prop :=
  self w = r0
  ∧ components (locals w) = comps
  ∧ (∃ records,
       log w = log0 ++ records
       ∧ filter (λ r, is_error_record r = true) records
         = omap (failure_record r0) (take j comps))
  ∧ simulated_components (locals w) = filter (λ c, built r0 c = true) (take j comps)
  ∧ length (optimal_lengths (locals w)) = length (simulated_components (locals w))
  ∧ length (transmission_coefficients (locals w)) = length (simulated_components (locals w))
  ∧ length (reflection_coefficients (locals w)) = length (simulated_components (locals w))
  ∧ length (length_sweeps (locals w)) = length (simulated_components (locals w))
  ∧ (∀ i L T R table,
       optimal_lengths (locals w) !! i = Some L →
       transmission_coefficients (locals w) !! i = Some T →
       reflection_coefficients (locals w) !! i = Some R →
       length_sweeps (locals w) !! i = Some table →
       searched (design_intent r0) table L T R).

End vocabulary.

(** * Properties *)

(** ** Comparisons of floats

    [<?] and [=?] on floats are specified through [SFcompare] on the decoded
    numbers: a lexicographic order on sign, exponent and mantissa, undefined
    on NaN. *)

Ltac order_cases :=
  repeat match goal with
  | H : context [PosDef.Pos.compare_cont Eq ?a ?b] |- _ =>
      change (PosDef.Pos.compare_cont Eq a b) with (Pos.compare a b) in H
  | |- context [PosDef.Pos.compare_cont Eq ?a ?b] =>
      change (PosDef.Pos.compare_cont Eq a b) with (Pos.compare a b)
  | H : context [Z.compare ?a ?b] |- _ => destruct (Z.compare_spec a b); simpl in H
  | H : context [Pos.compare ?a ?b] |- _ => destruct (Pos.compare_spec a b); simpl in H
  | |- context [Z.compare ?a ?b] => destruct (Z.compare_spec a b); simpl
  | |- context [Pos.compare ?a ?b] => destruct (Pos.compare_spec a b); simpl
  end.

Lemma SFcompare_lt_trans (a b c : spec_float) :
  SFcompare a b = Some Lt → SFcompare b c = Some Lt → SFcompare a c = Some Lt.
Proof.
  destruct a as [[]|[]| |[] ma ea], b as [[]|[]| |[] mb eb], c as [[]|[]| |[] mc ec];
    simpl; try congruence;
    intros H1 H2; order_cases; try congruence; try lia.
Qed.

Lemma SFcompare_eq_r (a b c : spec_float) :
  SFcompare a b = Some Eq → SFcompare c a = SFcompare c b.
Proof.
  destruct a as [[]|[]| |[] ma ea], b as [[]|[]| |[] mb eb], c as [[]|[]| |[] mc ec];
    simpl; try congruence;
    intros H1; order_cases; subst; try congruence; try lia.
Qed.

Lemma float_ltb_trans (x y z : float) :
  (x <? y)%float = true → (y <? z)%float = true → (x <? z)%float = true.
Proof.
  rewrite !FloatAxioms.ltb_spec. unfold SFltb.
  destruct (SFcompare (Prim2SF x) (Prim2SF y)) as [[]|] eqn:E1; try discriminate.
  destruct (SFcompare (Prim2SF y) (Prim2SF z)) as [[]|] eqn:E2; try discriminate.
  intros _ _. now rewrite (SFcompare_lt_trans _ _ _ E1 E2).
Qed.

Lemma float_ltb_irrefl (x : float) : (x <? x)%float = false.
Proof.
  rewrite FloatAxioms.ltb_spec. unfold SFltb.
  destruct (Prim2SF x) as [[]|[]| |[] mx ex]; simpl; try done;
    order_cases; try done; lia.
Qed.

Lemma float_ltb_eqb_r (x y z : float) :
  (x =? y)%float = true → (z <? x)%float = (z <? y)%float.
Proof.
  rewrite FloatAxioms.eqb_spec, !FloatAxioms.ltb_spec. unfold SFeqb, SFltb.
  destruct (SFcompare (Prim2SF x) (Prim2SF y)) as [[]|] eqn:E1; try discriminate.
  intros _. now rewrite (SFcompare_eq_r _ _ _ E1).
Qed.

Lemma float_eqb_eqb_r (x y z : float) :
  (x =? y)%float = true → (z =? x)%float = (z =? y)%float.
Proof.
  rewrite !FloatAxioms.eqb_spec. unfold SFeqb.
  destruct (SFcompare (Prim2SF x) (Prim2SF y)) as [[]|] eqn:E1; try discriminate.
  intros _. now rewrite (SFcompare_eq_r _ _ _ E1).
Qed.

(** ** Searches in lists *)

(** What [next] answers on a generator whose condition reads the item only:
    the first position that passes, or [StopIteration] when none does. *)
Lemma next_index_spec {A} (P : A → bool) (l : list A) (k : nat) :
  match next_index (λ _, P) k l with
  | Ok i =>
      ∃ j x, i = k + j ∧ l !! j = Some x ∧ P x = true
             ∧ ∀ j' y, j' < j → l !! j' = Some y → P y = false
  | Raise e => e = Exc StopIteration "" ∧ ∀ x, x ∈ l → P x = false
  end.
Proof.
  revert k. induction l as [|a l IH]; intros k; simpl.
  - split; [done|]. intros x Hx. inversion Hx.
  - destruct (P a) eqn:Ha.
    + exists 0, a. repeat split; [lia|done|]. intros j' y Hj. lia.
    + specialize (IH (S k)). destruct (next_index (λ _, P) (S k) l) as [i|e].
      * destruct IH as (j & x & -> & Hx & HP & Hmin).
        exists (S j), x. repeat split; [lia|done|done|].
        intros [|j'] y Hj Hy; simpl in Hy; [congruence|]. apply (Hmin j'); [lia|done].
      * destruct IH as [-> Hall]. split; [done|].
        intros x Hx. apply elem_of_cons in Hx as [->|Hx]; auto.
Qed.

(** ** The length-threshold search *)

Section threshold.
Context {env : Collaborators}.

(** On a column, the label of a row is its position. *)
Lemma lookup_fmap_Some' {A B} (f : A → B) (l : list A) (i : nat) (x : A) :
  l !! i = Some x → Series_getitem (f <$> l) (Z.of_nat i) = Ok (f x).
Proof.
  intros H. unfold Series_getitem.
  destruct (0 <=? Z.of_nat i)%Z eqn:Hi; [|apply Z.leb_gt in Hi; lia].
  now rewrite Nat2Z.id, list_lookup_fmap, H.
Qed.

(** C1. When some row of the sweep table has a transmission (in dB) above
    [-rate * length / cm], the threshold search of [eval] stops at the first
    such row [k], whatever the order of the lengths: it appends
    [length[k] / um] (the length in the unit of the sweep), [s21[k]] and
    [s11[k]] (in dB) to the three result lists, and neither logs nor raises. *)
Theorem threshold_search_first_crossing (di : RoutingTaperDesignIntent)
    (component : Component) (table : DataFrame) (w : world) (j : nat) (row_j : sample) :
  table !! j = Some row_j →
  below_routing_loss di row_j = true →
  ∃ k row,
    table !! k = Some row
    ∧ below_routing_loss di row = true
    ∧ (∀ i r, i < k → table !! i = Some r → below_routing_loss di r = false)
    ∧ threshold_search di component table w
      = (Ok tt, with_optimum w (col_length row / um)%float (s21_dB row) (s11_dB row)).
Proof.
  intros Hj Hcross.
  pose proof (next_index_spec (below_routing_loss di) table 0) as Hnext.
  destruct (next_index (λ _, below_routing_loss di) 0 table) as [i|e] eqn:E.
  - destruct Hnext as (k & row & -> & Hk & Hrow & Hfirst).
    exists k, row. repeat split; try done.
    unfold threshold_search, try_except, mbind, M_bind, lift. rewrite E. simpl.
    rewrite (lookup_fmap_Some' col_length _ _ _ Hk),
      (lookup_fmap_Some' s21_dB _ _ _ Hk). simpl.
    rewrite (lookup_fmap_Some' s11_dB _ _ _ Hk). reflexivity.
  - destruct Hnext as [_ Hnone].
    rewrite (Hnone row_j) in Hcross; [done|]. eapply list_elem_of_lookup_2, Hj.
Qed.

(** C3. The fallback of the threshold search does not end as the claim says.
    When no row of a candidate's sweep table has a transmission above
    [-rate * length / cm], the search logs one warning and appends the
    configured [stop_length] to the optimal lengths; then [s21[-1]] is read
    on a column whose integer keys are labels, and no row has the label
    [-1]: it raises [KeyError(-1)].  Nothing is appended to the two lists of
    coefficients, the body of the loop raises, and the loop stops with that
    exception before the candidates that follow. *)
Theorem threshold_search_no_crossing (di : RoutingTaperDesignIntent)
    (ss : option SimulationSettingsLumericalEme)
    (cs : option ConvergenceSettingsLumericalEme)
    (component : Component) (sim : LumericalEmeSimulation) (table : DataFrame)
    (w : world) :
  new_LumericalEmeSimulation component (material_map (self w)) (layer_stack (self w))
    ss cs eval_flags (dirpath (self w)) = Ok sim →
  get_length_sweep sim (start_length di) (stop_length di) (num_pts di) = Ok table →
  (∀ row, row ∈ table → below_routing_loss di row = false) →
  ∃ w',
    threshold_search di component table (with_simulation w sim component table)
    = (Raise (Exc KeyError "-1"), w')
    ∧ (∀ rest,
         for_each (component :: rest) (loop_body ss cs di) w
         = (Raise (Exc KeyError "-1"), w'))
    ∧ log w'
      = log w ++ [warning_routing_loss component
                    (narrow_waveguide_routing_loss_per_cm di) (stop_length di)]
    ∧ optimal_lengths (locals w') = optimal_lengths (locals w) ++ [stop_length di]
    ∧ transmission_coefficients (locals w') = transmission_coefficients (locals w)
    ∧ reflection_coefficients (locals w') = reflection_coefficients (locals w)
    ∧ length_sweeps (locals w') = length_sweeps (locals w) ++ [table].
Proof.
  intros Hsim Hsweep Hnone.
  pose proof (next_index_spec (below_routing_loss di) table 0) as Hnext.
  destruct (next_index (λ _, below_routing_loss di) 0 table) as [i|e] eqn:E.
  { destruct Hnext as (k & row & _ & Hk & Hrow & _).
    rewrite (Hnone row) in Hrow; [done|]. eapply list_elem_of_lookup_2, Hk. }
  destruct Hnext as [-> _].
  assert (Hsearch : ∀ w0, ∃ w',
    threshold_search di component table w0 = (Raise (Exc KeyError "-1"), w')
    ∧ self w' = self w0
    ∧ log w' = log w0 ++ [warning_routing_loss component
                            (narrow_waveguide_routing_loss_per_cm di) (stop_length di)]
    ∧ optimal_lengths (locals w') = optimal_lengths (locals w0) ++ [stop_length di]
    ∧ transmission_coefficients (locals w') = transmission_coefficients (locals w0)
    ∧ reflection_coefficients (locals w') = reflection_coefficients (locals w0)
    ∧ length_sweeps (locals w') = length_sweeps (locals w0)).
  { intros w0. eexists. split.
    - unfold threshold_search, try_except, mbind, M_bind, lift. rewrite E. simpl.
      reflexivity.
    - by simpl. }
  destruct (Hsearch (with_simulation w sim component table))
    as (w' & Hrun & _ & Hlog & HL & HT & HR & HD).
  exists w'. split; [done|]. split; [|done].
  intros rest. simpl. unfold mbind at 1, M_bind at 1.
  replace (loop_body ss cs di component w) with
    (threshold_search di component table (with_simulation w sim component table)).
  - now rewrite Hrun.
  - unfold loop_body, try_except, mbind, M_bind, lift, get. rewrite Hsim. simpl.
    rewrite Hsweep. reflexivity.
Qed.

End threshold.

(** C1, at the crossing sweep of the bench: the second row is the first
    one above the threshold. *)
Lemma threshold_search_first_crossing_witness :
  ∃ k row,
    Bench.crossing_table !! k = Some row
    ∧ @below_routing_loss Bench.sine_fails default_intent row = true
    ∧ (∀ i r, i < k → Bench.crossing_table !! i = Some r →
         @below_routing_loss Bench.sine_fails default_intent r = false)
    ∧ @threshold_search Bench.sine_fails default_intent
        (Bench.make_taper "narrow" "wide" 5 "linear") Bench.crossing_table
        Bench.sine_fails_world
      = (Ok tt, @with_optimum Bench.sine_fails Bench.sine_fails_world (col_length row / um)%float
                  (@s21_dB Bench.sine_fails row) (@s11_dB Bench.sine_fails row)).
Proof.
  apply (@threshold_search_first_crossing Bench.sine_fails default_intent
           (Bench.make_taper "narrow" "wide" 5 "linear") Bench.crossing_table
           Bench.sine_fails_world 2 (Bench.row (200 * um) (-0.00001) (-85)));
    reflexivity.
Defined.

(** C3, on the bench whose sweeps never reach the threshold, for the first
    candidate: the loop stops there. *)
Lemma threshold_search_no_crossing_witness :
  ∃ w' : @world Bench.never_crosses,
    @threshold_search Bench.never_crosses default_intent
      (Bench.make_taper "narrow" "wide" 5 "sine") Bench.flat_table
      (@with_simulation Bench.never_crosses Bench.never_crosses_world
         (Bench.make_taper "narrow" "wide" 5 "sine")
         (Bench.make_taper "narrow" "wide" 5 "sine") Bench.flat_table)
    = (Raise (Exc KeyError "-1"), w')
    ∧ (∀ rest : list (@Component Bench.never_crosses),
         for_each (Bench.make_taper "narrow" "wide" 5 "sine" :: rest)
           (@loop_body Bench.never_crosses (Some "{}") (Some "{}") default_intent)
           Bench.never_crosses_world
         = (Raise (Exc KeyError "-1"), w'))
    ∧ log w'
      = log Bench.never_crosses_world
        ++ [@warning_routing_loss Bench.never_crosses
              (Bench.make_taper "narrow" "wide" 5 "sine")
              (narrow_waveguide_routing_loss_per_cm default_intent)
              (stop_length default_intent)]
    ∧ optimal_lengths (locals w')
      = optimal_lengths (locals Bench.never_crosses_world) ++ [stop_length default_intent]
    ∧ transmission_coefficients (locals w')
      = transmission_coefficients (locals Bench.never_crosses_world)
    ∧ reflection_coefficients (locals w')
      = reflection_coefficients (locals Bench.never_crosses_world)
    ∧ length_sweeps (locals w')
      = length_sweeps (locals Bench.never_crosses_world) ++ [Bench.flat_table].
Proof.
  apply (@threshold_search_no_crossing Bench.never_crosses default_intent
           (Some "{}") (Some "{}")
           (Bench.make_taper "narrow" "wide" 5 "sine")
           (Bench.make_taper "narrow" "wide" 5 "sine")
           Bench.flat_table Bench.never_crosses_world).
  - reflexivity.
  - reflexivity.
  - intros r Hr. unfold Bench.flat_table in Hr.
    repeat (apply elem_of_cons in Hr as [->|Hr]; [reflexivity|]).
    inversion Hr.
Defined.

(** ** The smallest item of a list and its index *)

(** The item that the loop of [min] ends on: no item of the list is
    strictly below it, it is the starting item or strictly below it, and it
    is the starting item or sits in the slot it is tagged with. *)
Lemma min_loop_spec (l : list float) (best : item) (k : nat) :
  let m := min_loop best k l in
  (∀ y, y ∈ l → (y <? item_val m)%float = false)
  ∧ (m = best ∨ (item_val m <? item_val best)%float = true)
  ∧ (m = best ∨ ∃ j, item_slot m = k + j ∧ l !! j = Some (item_val m)).
Proof.
  revert best k. induction l as [|x l IH]; intros best k; simpl.
  - split; [|auto]. intros y Hy. inversion Hy.
  - destruct (x <? item_val best)%float eqn:Hx.
    + destruct (IH (Item k x) (S k)) as (Hmin & Hbelow & Hslot).
      simpl in Hmin, Hbelow, Hslot.
      remember (min_loop (Item k x) (S k) l) as m eqn:Em. clear Em.
      repeat split.
      * intros y Hy. apply elem_of_cons in Hy as [->|Hy]; [|auto].
        destruct Hbelow as [->|Hlt]; simpl.
        -- apply float_ltb_irrefl.
        -- destruct (x <? item_val m)%float eqn:Hxm; [|done].
           pose proof (float_ltb_trans _ _ _ Hlt Hxm) as Hmm.
           now rewrite float_ltb_irrefl in Hmm.
      * right. destruct Hbelow as [->|Hlt]; [done|].
        eapply float_ltb_trans; eauto.
      * right. destruct Hslot as [->|(j & Hj & Hl)].
        -- exists 0. split; [simpl; lia|done].
        -- exists (S j). split; [lia|done].
    + destruct (IH best (S k)) as (Hmin & Hbelow & Hslot).
      simpl in Hmin, Hbelow, Hslot.
      remember (min_loop best (S k) l) as m eqn:Em. clear Em.
      repeat split.
      * intros y Hy. apply elem_of_cons in Hy as [->|Hy]; [|auto].
        destruct Hbelow as [->|Hlt]; [done|].
        destruct (x <? item_val m)%float eqn:Hxm; [|done].
        now rewrite (float_ltb_trans _ _ _ Hxm Hlt) in Hx.
      * done.
      * destruct Hslot as [->|(j & Hj & Hl)]; [by left|].
        right. exists (S j). split; [lia|done].
Qed.

(** [min] of a list that is not empty: one of its items, in its slot, with no
    item strictly below it. *)
Lemma py_min_spec (x : float) (l : list float) :
  ∃ m, py_min (x :: l) = Ok m
       ∧ (x :: l) !! item_slot m = Some (item_val m)
       ∧ ∀ y, y ∈ x :: l → (y <? item_val m)%float = false.
Proof.
  exists (min_loop (Item 0 x) 1 l). split; [done|].
  destruct (min_loop_spec l (Item 0 x) 1) as (Hmin & Hbelow & Hslot).
  simpl in Hmin, Hbelow, Hslot.
  remember (min_loop (Item 0 x) 1 l) as m eqn:Em. clear Em. split.
  - destruct Hslot as [->|(j & -> & Hl)]; [done|exact Hl].
  - intros y Hy. apply elem_of_cons in Hy as [->|Hy]; [|auto].
    destruct Hbelow as [->|Hlt]; simpl.
    + apply float_ltb_irrefl.
    + simpl in Hlt. destruct (x <? item_val m)%float eqn:Hxm; [|done].
      pose proof (float_ltb_trans _ _ _ Hlt Hxm) as Hmm.
           now rewrite float_ltb_irrefl in Hmm.
Qed.

(** [index] finds an object of the list: at the first slot that holds it or
    an item equal to it. *)
Lemma index_loop_spec (v : item) (l : list float) (k j : nat) :
  l !! j = Some (item_val v) → item_slot v = k + j →
  ∃ i y, index_loop v k l = Ok (k + i)
         ∧ i ≤ j
         ∧ l !! i = Some y
         ∧ (i = j ∨ (y =? item_val v)%float = true)
         ∧ ∀ i' y', i' < i → l !! i' = Some y' → (y' =? item_val v)%float = false.
Proof.
  revert k j. induction l as [|x l IH]; intros k j Hj Hslot; [done|]. simpl.
  destruct ((k =? item_slot v) || (x =? item_val v)%float) eqn:Hhit.
  - exists 0, x. rewrite Nat.add_0_r.
    split; [done|]. split; [lia|]. split; [done|]. split; [|intros; lia].
    apply orb_true_iff in Hhit as [Hk|Hx]; [|by right].
    left. apply Nat.eqb_eq in Hk. lia.
  - apply orb_false_iff in Hhit as [Hk Hx]. apply Nat.eqb_neq in Hk.
    destruct j as [|j]; [lia|]. simpl in Hj.
    destruct (IH (S k) j Hj ltac:(lia)) as (i & y & Hi & Hle & Hy & Hwhy & Hfirst).
    exists (S i), y. split; [|split; [|split; [|split]]].
    + rewrite Hi. f_equal. lia.
    + lia.
    + done.
    + destruct Hwhy as [->|Hyv]; auto.
    + intros [|i'] y' Hlt Hy'; simpl in Hy'; [congruence|].
      apply (Hfirst i'); [lia|done].
Qed.

(** C10. The index that [eval] takes for the shortest optimal length, and for
    the lowest reflection, is [l.index(min(l))]: on a list that is not empty
    it is the index of an item with no item strictly below it, and the
    smallest index among the items equal to it, so that of several candidates
    that share the minimum the one simulated first is taken. *)
Theorem index_of_min_first_of_ties (x : float) (l : list float) :
  ∃ ind v,
    index_of_min (x :: l) = Ok ind
    ∧ (x :: l) !! ind = Some v
    ∧ (∀ y, y ∈ x :: l → (y <? v)%float = false)
    ∧ (∀ j y, (x :: l) !! j = Some y → (y =? v)%float = true → ind ≤ j).
Proof.
  destruct (py_min_spec x l) as (m & Hm & Hslot & Hmin).
  destruct (index_loop_spec m (x :: l) 0 (item_slot m) Hslot eq_refl)
    as (i & y & Hi & Hle & Hy & Hwhy & Hfirst).
  exists i, y. unfold index_of_min. rewrite Hm. unfold py_index.
  split; [done|]. split; [done|].
  assert (Hsame : ∀ z, (z <? y)%float = (z <? item_val m)%float
                       ∧ (z =? y)%float = (z =? item_val m)%float).
  { intros z. destruct Hwhy as [->|Heq].
    - rewrite Hslot in Hy. by inversion Hy.
    - split; [by apply float_ltb_eqb_r|by apply float_eqb_eqb_r]. }
  split.
  - intros z Hz. destruct (Hsame z) as [-> _]. auto.
  - intros j z Hj Hz. destruct (Hsame z) as [_ Heq]. rewrite Heq in Hz.
    destruct (decide (i ≤ j)) as [|Hnle]; [done|].
    rewrite (Hfirst j z) in Hz; [done|lia|done].
Qed.

(** ** The selection rule *)

(** The two equations of sequencing. *)
Lemma M_bind_Ok {S A B} (m : M S A) (f : A → M S B) (s s' : S) (a : A) :
  m s = (Ok a, s') → (m ≫= f) s = f a s'.
Proof. intros H. unfold mbind, M_bind. now rewrite H. Qed.

Lemma M_bind_Raise {S A B} (m : M S A) (f : A → M S B) (s s' : S) (e : exception) :
  m s = (Raise e, s') → (m ≫= f) s = (Raise e, s').
Proof. intros H. unfold mbind, M_bind. now rewrite H. Qed.

Lemma run_Ok {S A} (p : result A * S) (a : A) : p.1 = Ok a → p = (Ok a, p.2).
Proof. destruct p as [r s]. simpl. by intros ->. Qed.

Lemma M_bind_inv {S A B} (m : M S A) (f : A → M S B) (s s' : S) (b : B) :
  (m ≫= f) s = (Ok b, s') → ∃ a s1, m s = (Ok a, s1) ∧ f a s1 = (Ok b, s').
Proof.
  unfold mbind, M_bind. destruct (m s) as [[a|e] s1]; [|done]. intros H. by exists a, s1.
Qed.

Lemma lift_inv {S A} (r : result A) (a : A) (s s' : S) :
  lift r s = (Ok a, s') → r = Ok a ∧ s' = s.
Proof. unfold lift. intros H. by inversion H. Qed.

Lemma lift_Ok {S A} (r : result A) (a : A) (s : S) :
  r = Ok a → lift r s = (Ok a, s).
Proof. now intros ->. Qed.


Lemma mapM_lift_inv {S A B} (g : A → result B) (l : list A) (s s' : S) (ys : list B) :
  mapM (λ x, lift (g x)) l s = (Ok ys, s') →
  s' = s ∧ ∀ i x, l !! i = Some x → ∃ y, ys !! i = Some y ∧ g x = Ok y.
Proof.
  revert ys s'. induction l as [|a l IH]; intros ys s' Hrun; simpl in Hrun.
  - inversion Hrun; subst. split; [done|]. intros i x Hi. done.
  - apply M_bind_inv in Hrun as (b & s1 & Hb & Hrun).
    apply lift_inv in Hb as [Hb ->].
    apply M_bind_inv in Hrun as (bs & s2 & Hbs & Hrun).
    apply IH in Hbs as [-> Hlook]. inversion Hrun; subst. split; [done|].
    intros [|i] x Hi; simpl in Hi.
    + inversion Hi; subst. by exists b.
    + by apply Hlook.
Qed.

Lemma py_getitem_inv {A} (l : list A) (i : nat) (x : A) :
  py_getitem l i = Ok x → l !! i = Some x.
Proof. unfold py_getitem. destruct (l !! i); [|done]. intros H. by inversion H. Qed.



Section selection.
Context {env : Collaborators}.



End selection.


(** ** What [eval] leaves unchanged *)

Section frame.
Context {env : Collaborators}.

Lemma same_configuration_refl (r : RoutingTaperDesignRecipe) : same_configuration r r.
Proof. by repeat split. Qed.

Lemma same_configuration_trans (a b c : RoutingTaperDesignRecipe) :
  same_configuration a b → same_configuration b c → same_configuration a c.
Proof.
  unfold same_configuration. intros H1 H2.
  destruct H1 as (?&?&?&?&?&?&?&?&?), H2 as (?&?&?&?&?&?&?&?&?).
  repeat split; congruence.
Qed.

Section preserves.
Variable R : RoutingTaperDesignRecipe → RoutingTaperDesignRecipe → Prop.
Hypothesis R_refl : ∀ r, R r r.
Hypothesis R_trans : ∀ a b c, R a b → R b c → R a c.

Lemma preserves_ret {A} (a : A) : preserves R (mret a).
Proof. intros w. apply R_refl. Qed.

Lemma preserves_get : preserves R get.
Proof. intros w. apply R_refl. Qed.

Lemma preserves_lift {A} (r : result A) : preserves R (lift r).
Proof. intros w. apply R_refl. Qed.

Lemma preserves_logger (r : log_record) : preserves R (logger r).
Proof. intros w. apply R_refl. Qed.

Lemma preserves_on_locals (f : frame → frame) : preserves R (on_locals f).
Proof. intros w. apply R_refl. Qed.

Lemma preserves_on_self (f : RoutingTaperDesignRecipe → RoutingTaperDesignRecipe) :
  (∀ r, R r (f r)) → preserves R (on_self f).
Proof. intros Hf w. apply Hf. Qed.

Lemma preserves_bind {A B} (m : M world A) (f : A → M world B) :
  preserves R m → (∀ a, preserves R (f a)) → preserves R (m ≫= f).
Proof.
  intros Hm Hf w. unfold mbind, M_bind. specialize (Hm w).
  destruct (m w) as [[a|e] w1]; simpl in *; [|done].
  eapply R_trans; [exact Hm|apply Hf].
Qed.

Lemma preserves_try_except {A} (body : M world A) (catches : exn_class → bool)
    (handler : exception → M world A) :
  preserves R body → (∀ e, preserves R (handler e)) → preserves R (try_except body catches handler).
Proof.
  intros Hb Hh w. unfold try_except. specialize (Hb w).
  destruct (body w) as [[a|e] w1]; simpl in *; [done|].
  destruct (catches (exn_cls e)); [|done].
  eapply R_trans; [exact Hb|apply Hh].
Qed.

Lemma preserves_for_each {A} (xs : list A) (body : A → M world unit) :
  (∀ x, preserves R (body x)) → preserves R (for_each xs body).
Proof.
  intros Hb. induction xs as [|x xs IH]; simpl.
  - apply preserves_ret.
  - apply preserves_bind; [apply Hb|]. intros _. exact IH.
Qed.

Lemma preserves_mapM {A B} (f : A → M world B) (xs : list A) :
  (∀ x, preserves R (f x)) → preserves R (mapM f xs).
Proof.
  intros Hf. induction xs as [|x xs IH]; simpl.
  - apply preserves_ret.
  - apply preserves_bind; [apply Hf|]. intros b.
    apply preserves_bind; [exact IH|]. intros bs. apply preserves_ret.
Qed.

Ltac preserve :=
  repeat first
    [ apply preserves_ret | apply preserves_get | apply preserves_lift
    | apply preserves_logger | apply preserves_on_locals
    | apply preserves_bind; [|intros ?] | apply preserves_try_except; [|intros ?]
    | apply preserves_for_each; intros ? | apply preserves_mapM; intros ? ].

Lemma preserves_loop_body (ss : option SimulationSettingsLumericalEme)
    (cs : option ConvergenceSettingsLumericalEme) (di : RoutingTaperDesignIntent)
    (c : Component) :
  preserves R (loop_body ss cs di c).
Proof.
  unfold loop_body, sims_append, simulated_components_append, length_sweeps_append.
  preserve.
  match goal with |- preserves R (match ?x with _ => _ end) => destruct x end; preserve.
Qed.

Lemma preserves_sweep_geometry : preserves R sweep_geometry.
Proof.
  unfold sweep_geometry.
  apply preserves_bind; [apply preserves_get|intros w0].
  apply preserves_bind; [apply preserves_on_locals|intros _].
  apply preserves_bind; [apply preserves_get|intros w1].
  apply preserves_for_each. intros c. apply preserves_loop_body.
Qed.

Lemma preserves_get_best_component :
  (∀ c r, R r (set_component c r)) → (∀ t r, R r (set_length_sweep t r)) →
  preserves R get_best_component.
Proof.
  intros Hc Ht. unfold get_best_component. preserve.
  - apply preserves_on_self, Hc.
  - apply preserves_on_self, Ht.
Qed.

Lemma preserves_eval :
  (∀ h r, R r (set_last_hash h r)) →
  (∀ c r, R r (set_component c r)) → (∀ t r, R r (set_length_sweep t r)) →
  preserves R eval.
Proof.
  intros Hh Hc Ht. unfold eval.
  apply preserves_bind; [apply preserves_get|intros w0].
  apply preserves_bind; [apply preserves_lift|intros h].
  apply preserves_bind; [apply preserves_on_self, Hh|intros _].
  apply preserves_bind; [apply preserves_sweep_geometry|intros _].
  by apply preserves_get_best_component.
Qed.

End preserves.

(** C8. Whatever [eval] does, and whether it ends normally or raises, the
    recipe object it leaves has the design intent (with its five fields), the
    simulation settings and the convergence settings it started with, and
    every other attribute but [component], [length_sweep] and [last_hash]
    likewise. *)
Theorem eval_keeps_configuration (w : world) :
  same_configuration (self w) (self (eval w).2).
Proof.
  apply (preserves_eval same_configuration).
  - apply same_configuration_refl.
  - apply same_configuration_trans.
  - intros h r. by repeat split.
  - intros c r. by repeat split.
  - intros t r. by repeat split.
Qed.

(** The digest that [eval] stores is the digest of the object it leaves:
    [__hash__] and [hash] give after [eval], however it ends, what they gave
    before. *)
Theorem eval_keeps_hash (w : world) :
  __hash__ (self (eval w).2) = __hash__ (self w)
  ∧ hash (self (eval w).2) = hash (self w).
Proof.
  assert (Hsame : same_configuration (self w) (self (eval w).2)).
  { apply (preserves_eval same_configuration).
    - apply same_configuration_refl.
    - apply same_configuration_trans.
    - intros h r. by repeat split.
    - intros c r. by repeat split.
    - intros t r. by repeat split. }
  destruct Hsame as (Hc & Hm & Hl & _ & _ & _ & Hdi & Hss & Hcs).
  assert (H : __hash__ (self (eval w).2) = __hash__ (self w)).
  { unfold __hash__. by rewrite Hc, Hm, Hl, Hdi, Hss, Hcs. }
  split; [done|]. unfold hash. by rewrite H.
Qed.

End frame.

(** ** The loop over the candidates *)

Lemma for_each_Ok_invariant {S A} (I : nat → S → Prop) (body : A → M S unit)
    (xs : list A) (s s' : S) :
  (∀ j x s1 s2, xs !! j = Some x → I j s1 → body x s1 = (Ok tt, s2) → I (Datatypes.S j) s2) →
  I 0 s →
  for_each xs body s = (Ok tt, s') →
  I (length xs) s'.
Proof.
  revert I s. induction xs as [|x xs IH]; intros I s Hstep H0 Hrun; simpl in *.
  - by inversion Hrun; subst.
  - unfold mbind, M_bind in Hrun.
    destruct (body x s) as [[[]|e] s1] eqn:Hx; [|done].
    apply (IH (λ j, I (Datatypes.S j)) s1); [|by apply (Hstep 0 x s)|done].
    intros j y s2 s3 Hy. apply (Hstep (Datatypes.S j) y). exact Hy.
Qed.

Lemma lookup_snoc_Some {A} (l : list A) (x y : A) (i : nat) :
  (l ++ [x]) !! i = Some y →
  (i < length l ∧ l !! i = Some y) ∨ (i = length l ∧ y = x).
Proof.
  intros H. destruct (decide (i < length l)) as [Hlt|Hge].
  - left. split; [done|]. by rewrite lookup_app_l in H.
  - right. rewrite lookup_app_r in H by lia.
    destruct (i - length l) as [|d] eqn:Hd; simpl in H; [|done].
    split; [lia|congruence].
Qed.

Section loop.
Context {env : Collaborators}.

Lemma loop_body_failed (ss : option SimulationSettingsLumericalEme)
    (cs : option ConvergenceSettingsLumericalEme) (di : RoutingTaperDesignIntent)
    (c : Component) (w : world) (e : exception) :
  new_LumericalEmeSimulation c (material_map (self w)) (layer_stack (self w))
    ss cs eval_flags (dirpath (self w)) = Raise e →
  loop_body ss cs di c w = (Ok tt, with_log w (error_failed_to_simulate e c)).
Proof.
  intros Hsim. unfold loop_body, try_except, mbind, M_bind, lift, get.
  rewrite Hsim. reflexivity.
Qed.

Lemma loop_body_simulated (ss : option SimulationSettingsLumericalEme)
    (cs : option ConvergenceSettingsLumericalEme) (di : RoutingTaperDesignIntent)
    (c : Component) (w : world) (sim : LumericalEmeSimulation) (table : DataFrame) :
  new_LumericalEmeSimulation c (material_map (self w)) (layer_stack (self w))
    ss cs eval_flags (dirpath (self w)) = Ok sim →
  get_length_sweep sim (start_length di) (stop_length di) (num_pts di) = Ok table →
  loop_body ss cs di c w = threshold_search di c table (with_simulation w sim c table).
Proof.
  intros Hsim Hsweep. unfold loop_body, try_except, mbind, M_bind, lift, get.
  rewrite Hsim. simpl. rewrite Hsweep. reflexivity.
Qed.

Lemma loop_body_sweep_raises (ss : option SimulationSettingsLumericalEme)
    (cs : option ConvergenceSettingsLumericalEme) (di : RoutingTaperDesignIntent)
    (c : Component) (w : world) (sim : LumericalEmeSimulation) (e : exception) :
  new_LumericalEmeSimulation c (material_map (self w)) (layer_stack (self w))
    ss cs eval_flags (dirpath (self w)) = Ok sim →
  get_length_sweep sim (start_length di) (stop_length di) (num_pts di) = Raise e →
  ∃ w', loop_body ss cs di c w = (Raise e, w').
Proof.
  intros Hsim Hsweep. unfold loop_body, try_except, mbind, M_bind, lift, get.
  rewrite Hsim. simpl. rewrite Hsweep. eauto.
Qed.


(** A candidate whose simulation cannot be built is skipped: one error is
    logged, nothing is appended to the result lists, and the loop goes on
    with the candidates that follow. *)
Theorem failed_candidate_is_skipped (ss : option SimulationSettingsLumericalEme)
    (cs : option ConvergenceSettingsLumericalEme) (di : RoutingTaperDesignIntent)
    (c : Component) (rest : list Component) (w : world) (e : exception) :
  new_LumericalEmeSimulation c (material_map (self w)) (layer_stack (self w))
    ss cs eval_flags (dirpath (self w)) = Raise e →
  for_each (c :: rest) (loop_body ss cs di) w
  = for_each rest (loop_body ss cs di)
      {| self := self w;
         log := log w ++ [error_failed_to_simulate e c];
         locals := locals w |}.
Proof.
  intros Hsim. simpl.
  erewrite M_bind_Ok by (by apply loop_body_failed). reflexivity.
Qed.

End loop.

(** The [sine] candidate of the bench is skipped. *)
Lemma failed_candidate_is_skipped_witness :
  for_each (Bench.candidate "sine" :: [Bench.candidate "linear"])
    (@loop_body Bench.sine_fails (Some "{}") (Some "{}") default_intent)
    Bench.sine_fails_world
  = for_each [Bench.candidate "linear"]
      (@loop_body Bench.sine_fails (Some "{}") (Some "{}") default_intent)
      {| self := self Bench.sine_fails_world;
         log := log Bench.sine_fails_world
                ++ [@error_failed_to_simulate Bench.sine_fails
                      (Exc RuntimeError "solver failed") (Bench.candidate "sine")];
         locals := locals Bench.sine_fails_world |}.
Proof.
  apply (@failed_candidate_is_skipped Bench.sine_fails (Some "{}") (Some "{}")
           default_intent (Bench.candidate "sine") [Bench.candidate "linear"]
           Bench.sine_fails_world (Exc RuntimeError "solver failed")).
  reflexivity.
Defined.

(** ** No candidate left *)

Section total_failure.
Context {env : Collaborators}.

Lemma for_each_all_failed (ss : option SimulationSettingsLumericalEme)
    (cs : option ConvergenceSettingsLumericalEme) (di : RoutingTaperDesignIntent)
    (comps : list Component) (w : world) :
  (∀ c, c ∈ comps →
     ∃ e, new_LumericalEmeSimulation c (material_map (self w)) (layer_stack (self w))
            ss cs eval_flags (dirpath (self w)) = Raise e) →
  ∃ errors,
    for_each comps (loop_body ss cs di) w
    = (Ok tt, {| self := self w; log := log w ++ errors; locals := locals w |})
    ∧ length errors = length comps
    ∧ Forall is_error errors.
Proof.
  revert w. induction comps as [|c comps IH]; intros w Hall; simpl.
  - exists []. rewrite app_nil_r. by destruct w.
  - destruct (Hall c) as [e He]; [left|].
    destruct (IH (with_log w (error_failed_to_simulate e c))) as (errors & Hrun & Hlen & Herr).
    { intros c' Hc'. apply Hall. by right. }
    exists (error_failed_to_simulate e c :: errors). split; [|split].
    + erewrite M_bind_Ok by (by apply loop_body_failed).
      rewrite Hrun. simpl. by rewrite <- app_assoc.
    + simpl. by rewrite Hlen.
    + constructor; [by exists e, c|done].
Qed.

Lemma get_best_component_empty (w : world) :
  optimal_lengths (locals w) = [] →
  simulated_components (locals w) = [] →
  get_best_component w
  = (Raise (Exc ValueError "min() arg is an empty sequence"), with_log w (info_results [])).
Proof.
  intros HL HS. unfold get_best_component.
  erewrite M_bind_Ok by reflexivity. cbv beta zeta. rewrite HS, HL. simpl.
  erewrite M_bind_Ok by reflexivity.
  erewrite M_bind_Ok by reflexivity.
  reflexivity.
Qed.

(** C7, as the code has it. When the hash is taken and the simulation of
    every candidate raises, [eval] raises the [ValueError] of [min] on the
    empty list of optimal lengths, which is no [IndexError] nor [KeyError];
    no component and no sweep table are saved, and the log holds one error
    per width type and the (empty) results. *)
Theorem eval_all_candidates_fail (w : world) (h : Z) :
  hash (self w) = Ok h →
  (∀ wtype, wtype ∈ WidthTypes →
     ∃ e, new_LumericalEmeSimulation
            (cell (self w) (cross_section1 (self w)) (cross_section2 (self w)) 5%float wtype)
            (material_map (self w)) (layer_stack (self w))
            (simulation_setup (self w)) (convergence_setup (self w))
            eval_flags (dirpath (self w)) = Raise e) →
  ∃ e w' errors,
    eval w = (Raise e, w')
    ∧ exn_cls e = ValueError
    ∧ is_LookupError (exn_cls e) = false
    ∧ component (self w') = component (self w)
    ∧ length_sweep (self w') = length_sweep (self w)
    ∧ log w' = log w ++ errors ++ [info_results []]
    ∧ length errors = length WidthTypes
    ∧ Forall is_error errors.
Proof.
  intros Hh Hall.
  set (w1 := {| self := set_last_hash h (self w); log := log w; locals := locals w |}).
  set (comps := (λ wtype, cell (self w1) (cross_section1 (self w1))
                            (cross_section2 (self w1)) 5%float wtype) <$> WidthTypes).
  set (w2 := {| self := self w1; log := log w1; locals := new_frame comps |}).
  destruct (for_each_all_failed (simulation_setup (self w1)) (convergence_setup (self w1))
              (design_intent (self w1)) comps w2) as (errors & Hrun & Hlen & Herr).
  { intros c Hc. apply list_elem_of_fmap in Hc as (wtype & -> & Hw).
    apply (Hall wtype Hw). }
  exists (Exc ValueError "min() arg is an empty sequence").
  eexists. exists errors.
  split; [|split; [done|split; [done|]]].
  - unfold eval.
    erewrite M_bind_Ok by reflexivity.
    erewrite M_bind_Ok by (apply lift_Ok, Hh).
    erewrite M_bind_Ok by reflexivity.
    erewrite M_bind_Ok.
    2:{ unfold sweep_geometry.
        erewrite M_bind_Ok by reflexivity. cbv beta zeta.
        erewrite M_bind_Ok by reflexivity.
        erewrite M_bind_Ok by reflexivity.
        exact Hrun. }
    apply get_best_component_empty; reflexivity.
  - simpl. rewrite <- app_assoc. repeat split; try done.
    rewrite Hlen. unfold comps. by rewrite length_fmap.
Qed.

End total_failure.

(** C7, on the bench where no width type can be simulated. *)
Lemma eval_all_candidates_fail_witness :
  ∃ e w' errors,
    @eval Bench.all_fail Bench.all_fail_world = (Raise e, w')
    ∧ exn_cls e = ValueError
    ∧ is_LookupError (exn_cls e) = false
    ∧ component (self w') = component (self Bench.all_fail_world)
    ∧ length_sweep (self w') = length_sweep (self Bench.all_fail_world)
    ∧ log w' = log Bench.all_fail_world ++ errors ++ [@info_results Bench.all_fail []]
    ∧ length errors = length (@WidthTypes Bench.all_fail)
    ∧ Forall (@is_error Bench.all_fail) errors.
Proof.
  apply (@eval_all_candidates_fail Bench.all_fail Bench.all_fail_world Bench.all_fail_hash).
  - vm_compute. reflexivity.
  - intros wtype Hw. unfold WidthTypes, Bench.all_fail, Bench.bench,
      Bench.gdsfactory_width_types in Hw.
    repeat (apply elem_of_cons in Hw as [->|Hw]; [eexists; reflexivity|]).
    inversion Hw.
Defined.


(** C7 as it is stated fails on that bench: the exception that leaves
    [eval] is the [ValueError] of [min], not an index or lookup error. *)
Lemma eval_all_candidates_fail_not_lookup_error :
  ¬ ∃ e w', @eval Bench.all_fail Bench.all_fail_world = (Raise e, w')
            ∧ is_LookupError (exn_cls e) = true.
Proof.
  intros (e & w' & Hrun & Hcls).
  assert (Hraised : (@eval Bench.all_fail Bench.all_fail_world).1
                    = Raise (Exc ValueError "min() arg is an empty sequence"))
    by (vm_compute; reflexivity).
  rewrite Hrun in Hraised. simpl in Hraised. inversion Hraised; subst e.
  discriminate Hcls.
Qed.

(** ** The optimum that is reported comes from a row of the sweep *)

Section optimum.
Context {env : Collaborators}.





End optimum.



(** ** A candidate that fails shifts the width types *)

(** C4, where the code departs from it. On the bench, [sine] cannot be
    simulated: one error is logged, the loop goes on and [linear] and
    [parabolic] are simulated, each with a row above the threshold.
    [linear] is taken, with its optimal length (100 um) and its sweep table;
    but its index is an index among the simulated candidates, and the
    component that is saved is built with the width type at that index among
    all the width types, which is [sine]. *)
Theorem eval_partial_failure_width_type :
  (@eval Bench.sine_fails Bench.sine_fails_world).1 = Ok tt
  ∧ (∃ e results,
       log (@eval Bench.sine_fails Bench.sine_fails_world).2
       = [error_failed_to_simulate e (Bench.candidate "sine"); info_results results])
  ∧ simulated_components (locals (@eval Bench.sine_fails Bench.sine_fails_world).2)
    = [Bench.candidate "linear"; Bench.candidate "parabolic"]
  ∧ optimal_lengths (locals (@eval Bench.sine_fails Bench.sine_fails_world).2)
    = [100; 200]%float
  ∧ length_sweep (self (@eval Bench.sine_fails Bench.sine_fails_world).2)
    = Some Bench.crossing_table
  ∧ component (self (@eval Bench.sine_fails Bench.sine_fails_world).2)
    = Some (Bench.make_taper "narrow" "wide" 100 "sine").
Proof.
  split; [vm_compute; reflexivity|].
  split; [do 2 eexists; reflexivity|].
  repeat split; vm_compute; reflexivity.
Qed.

(** ** The process file *)

Section lbr.
Import Utils.
Variable get_layer_stack : LayerStack.
Variable module_dir : string.

Lemma process_of_spec (layer_name : string) (layer_info : LayerLevel) (w : Utils.world) :
  ∃ w', process_of layer_name layer_info w = (Ok (process_name layer_info), w')
        ∧ files w' = files w.
Proof.
  unfold process_of, process_name.
  destruct (String.eqb (layer_type layer_info) "grow"); [by eexists|].
  destruct (String.eqb (layer_type layer_info) "background"); [by eexists|].
  destruct (String.eqb (layer_type layer_info) "doping"); by eexists.
Qed.

(** One layer: the step raises the [ValueError] exactly on an invalid
    dopant, and writes no file. *)
Lemma layer_step_spec (material_map : gmap string string)
    (acc : list Element * list Element) (entry : string * LayerLevel) (w : Utils.world) :
  match layer_step material_map acc entry w with
  | (Ok _, w') => files w' = files w ∧ invalid_dopant entry.2 = false
  | (Raise e, w') =>
      files w' = files w ∧ exn_cls e = ValueError ∧ invalid_dopant entry.2 = true
  end.
Proof.
  destruct entry as [layer_name layer_info]. unfold layer_step.
  destruct (process_of_spec layer_name layer_info w) as (w' & Hp & Hfiles).
  erewrite M_bind_Ok by exact Hp. unfold invalid_dopant. simpl.
  destruct (String.eqb (process_name layer_info) "Implant"
            || String.eqb (process_name layer_info) "Background"); [|done].
  destruct (is_doped layer_info); [|done]. simpl.
  unfold doping_layer, mbind, M_bind, lift.
  destruct (String.eqb (default "" (background_doping_ion layer_info)) "n"
            || String.eqb (default "" (background_doping_ion layer_info)) "p"); done.
Qed.

Lemma layer_loop_spec (material_map : gmap string string) (entries : LayerStack)
    (acc : list Element * list Element) (w : Utils.world) :
  match layer_loop material_map acc entries w with
  | (Ok _, w') =>
      files w' = files w ∧ Forall (λ entry, invalid_dopant entry.2 = false) entries
  | (Raise e, w') =>
      files w' = files w ∧ exn_cls e = ValueError
      ∧ Exists (λ entry, invalid_dopant entry.2 = true) entries
  end.
Proof.
  revert acc w. induction entries as [|entry rest IH]; intros acc w; simpl.
  - by split.
  - pose proof (layer_step_spec material_map acc entry w) as Hstep.
    unfold mbind, M_bind.
    destruct (layer_step material_map acc entry w) as [[acc'|e] w1].
    + destruct Hstep as [Hf Hok]. specialize (IH acc' w1).
      destruct (layer_loop material_map acc' rest w1) as [[acc''|e] w2].
      * destruct IH as [Hf' Hall]. split; [congruence|by constructor].
      * destruct IH as (Hf' & Hcls & Hex). repeat split; [congruence|done|by right].
    + destruct Hstep as (Hf & Hcls & Hbad). repeat split; [done|done|by left].
Qed.

(** C9. [to_lbr] raises a [ValueError] if and only if some layer of the
    stack is under a Background or Implant process, has a truthy background
    doping concentration and a truthy background doping ion, and an ion that
    is neither "p" nor "n"; it raises nothing else, and when it raises no
    process file has been written. *)
Theorem to_lbr_raises_iff_invalid_dopant (material_map : gmap string string)
    (layerstack : option LayerStack) (dirpath : option PathType) (w : Utils.world) :
  ((∃ e w', to_lbr get_layer_stack module_dir material_map layerstack dirpath w
            = (Raise e, w')
            ∧ exn_cls e = ValueError)
   ↔ ∃ layer_name layer_info,
       (layer_name, layer_info) ∈ default get_layer_stack layerstack
       ∧ invalid_dopant layer_info = true)
  ∧ (∀ e w', to_lbr get_layer_stack module_dir material_map layerstack dirpath w
             = (Raise e, w') →
             exn_cls e = ValueError ∧ files w' = files w).
Proof.
  unfold to_lbr.
  pose proof (layer_loop_spec material_map (default get_layer_stack layerstack) ([], []) w)
    as Hloop.
  unfold mbind, M_bind.
  destruct (layer_loop material_map ([], []) (default get_layer_stack layerstack) w)
    as [[acc|e] w1].
  - destruct Hloop as [Hf Hall]. split; [split|].
    + intros (e & w' & Hrun & _). unfold write_file, modify in Hrun. done.
    + intros (layer_name & layer_info & Hin & Hbad).
      rewrite Forall_forall in Hall. specialize (Hall _ Hin). simpl in Hall. congruence.
    + intros e w' Hrun. unfold write_file, modify in Hrun. done.
  - destruct Hloop as (Hf & Hcls & Hex). split; [split|].
    + intros _. apply Exists_exists in Hex as ([layer_name layer_info] & Hin & Hbad).
      by exists layer_name, layer_info.
    + intros _. by exists e, w1.
    + intros e' w' Hrun. inversion Hrun; subst. done.
Qed.

End lbr.

(** On the stack whose implant names its ion in full, the dopant is refused
    and nothing is written. *)
Example to_lbr_boron_raises :
  let run := Utils.to_lbr [] "gplugins/lumerical" ∅ (Some Utils.boron_stack) None
               {| Utils.log := []; Utils.files := [] |} in
  (exn_cls <$> match run.1 with Raise e => Some e | Ok _ => None end) = Some ValueError
  ∧ Utils.files run.2 = [].
Proof. split; vm_compute; reflexivity. Qed.

(** Without the implant, the process file goes to the directory given, with
    two optical layers and one doping layer. *)
Example to_lbr_writes_process_file :
  let run := Utils.to_lbr [] "gplugins/lumerical" ∅ (Some (take 2 Utils.boron_stack))
               (Some "runs") {| Utils.log := []; Utils.files := [] |} in
  run.1 = Ok ("runs", "process.lbr")
  ∧ (λ file, (file.1,
              match file.2 with
              | Utils.Elem _ _ _ children =>
                  (λ child, match child with Utils.Elem tag _ _ sub => (tag, length sub) end)
                    <$> children
              end)) <$> Utils.files run.2
    = [("runs", "process.lbr",
        [("process_name", 0); ("layers", 2); ("doping_layers", 1)])].
Proof. split; vm_compute; reflexivity. Qed.

(** ** The fingerprint *)

Section fingerprint.
Context {env : Collaborators}.

(** C6. Two recipe objects with the same digest of the superclass, the same
    simulation settings, the same convergence settings and the same design
    intent have the same [__hash__] (the same digest, or the same exception),
    and so the same [hash]; the results they hold, their cross sections and
    their directory do not enter the digest. *)
Theorem hash_deterministic (r1 r2 : RoutingTaperDesignRecipe) :
  DesignRecipe_hash (cell r1) (material_map r1) (layer_stack r1)
  = DesignRecipe_hash (cell r2) (material_map r2) (layer_stack r2) →
  simulation_setup r1 = simulation_setup r2 →
  convergence_setup r1 = convergence_setup r2 →
  design_intent r1 = design_intent r2 →
  __hash__ r1 = __hash__ r2 ∧ hash r1 = hash r2.
Proof.
  intros Hsuper Hss Hcs Hdi.
  assert (H : __hash__ r1 = __hash__ r2).
  { unfold __hash__. by rewrite Hsuper, Hss, Hcs, Hdi. }
  split; [done|]. unfold hash. by rewrite H.
Qed.

End fingerprint.

(** C6, on the recipe of the bench before and after it holds a result. *)
Lemma hash_deterministic_witness :
  __hash__ Bench.sine_fails_recipe = __hash__ Bench.evaluated_recipe
  ∧ hash Bench.sine_fails_recipe = hash Bench.evaluated_recipe.
Proof.
  apply (@hash_deterministic Bench.sine_fails Bench.sine_fails_recipe Bench.evaluated_recipe);
    reflexivity.
Defined.

(** ** The bytes of the superclass digest *)

Lemma byte_of_Z_value (n : Z) : Z.of_N (Byte.to_N (byte_of_Z n)) = (n mod 256)%Z.
Proof.
  unfold byte_of_Z.
  assert (Hr : (0 ≤ n mod 256 < 256)%Z) by (apply Z.mod_pos_bound; lia).
  destruct (Byte.of_N (Z.to_N (n mod 256))) as [b|] eqn:Hb; simpl.
  - apply Byte.to_of_N in Hb. rewrite Hb. lia.
  - apply Byte.of_N_None_iff in Hb. lia.
Qed.

Lemma from_bytes_snoc (b : list byte) (x : byte) :
  from_bytes (b ++ [x]) = (from_bytes b * 256 + Z.of_N (Byte.to_N x))%Z.
Proof. unfold from_bytes. by rewrite foldl_snoc. Qed.

Lemma from_bytes_little_endian (len : nat) (n : Z) :
  (0 ≤ n < 256 ^ Z.of_nat len)%Z →
  from_bytes (rev (little_endian len n)) = n.
Proof.
  revert n. induction len as [|len IH]; intros n Hn.
  - simpl in *. unfold from_bytes. simpl. lia.
  - simpl. rewrite from_bytes_snoc, byte_of_Z_value, IH.
    + pose proof (Z.div_mod n 256). lia.
    + rewrite Nat2Z.inj_succ, Z.pow_succ_r in Hn by lia.
      split; [apply Z.div_pos; lia|]. apply Z.div_lt_upper_bound; lia.
Qed.

Lemma length_little_endian (len : nat) (n : Z) : length (little_endian len n) = len.
Proof. revert n. induction len as [|len IH]; intros n; simpl; [done|]. by rewrite IH. Qed.

Lemma below_bit_length (n : Z) : (0 ≤ n)%Z → (n < 256 ^ bit_length n)%Z ∧ (0 ≤ bit_length n)%Z.
Proof.
  intros Hn. unfold bit_length. destruct (n =? 0)%Z eqn:H0.
  - apply Z.eqb_eq in H0. subst. simpl. lia.
  - apply Z.eqb_neq in H0. rewrite Z.abs_eq by lia.
    pose proof (Z.log2_nonneg n) as Hl.
    destruct (Z.log2_spec n ltac:(lia)) as [_ Hlt].
    split; [|lia].
    eapply Z.lt_le_trans; [exact Hlt|].
    rewrite <- Z.add_1_r. apply Z.pow_le_mono_l. lia.
Qed.

(** The bytes of the superclass digest that enter the SHA-1: the length that
    [__hash__] asks for, [int_hash.bit_length() + 7 // 8], is the bit length
    itself ([7 // 8] is 0), so that a digest that is not negative is written
    in full on as many bytes as it has bits, zeros first, and never raises. *)
Theorem superclass_digest_bytes (n : Z) :
  (0 ≤ n)%Z →
  ∃ b, to_bytes n (bit_length n + 7 / 8) = Ok b
       ∧ Z.of_nat (length b) = bit_length n
       ∧ from_bytes b = n.
Proof.
  intros Hn. destruct (below_bit_length n Hn) as [Hlt Hbl].
  change (7 / 8)%Z with 0%Z. rewrite Z.add_0_r.
  exists (rev (little_endian (Z.to_nat (bit_length n)) n)).
  unfold to_bytes.
  destruct (n <? 0)%Z eqn:Hneg; [apply Z.ltb_lt in Hneg; lia|].
  destruct (256 ^ bit_length n <=? n)%Z eqn:Hbig; [apply Z.leb_le in Hbig; lia|].
  split; [done|]. split.
  - rewrite length_rev, length_little_endian. lia.
  - apply from_bytes_little_endian. rewrite Z2Nat.id by lia. lia.
Qed.

(** On the digest of the bench. *)
Lemma superclass_digest_bytes_witness :
  ∃ b, to_bytes 0x123456789ABCDEF0 (bit_length 0x123456789ABCDEF0 + 7 / 8) = Ok b
       ∧ Z.of_nat (length b) = bit_length 0x123456789ABCDEF0
       ∧ from_bytes b = 0x123456789ABCDEF0%Z.
Proof. apply (superclass_digest_bytes 0x123456789ABCDEF0). lia. Defined.


(** * Further properties of the recipe *)

(** ** The candidates that the loop keeps *)

Section sweep.
Context {env : Collaborators}.

(** A threshold search that ends normally appended what [searched]
    describes, and logged nothing. *)
Lemma threshold_search_searched (di : RoutingTaperDesignIntent) (c : Component)
    (table : DataFrame) (w w' : world) :
  threshold_search di c table w = (Ok tt, w') →
  ∃ L T R, searched di table L T R ∧ w' = with_optimum w L T R.
Proof.
  intros Hrun.
  pose proof (next_index_spec (below_routing_loss di) table 0) as Hnext.
  unfold threshold_search, try_except, mbind, M_bind, lift in Hrun.
  destruct (next_index (λ _, below_routing_loss di) 0 table) as [i|e] eqn:E.
  - destruct Hnext as (k & row & -> & Hk & Hrow & Hfirst). simpl in Hrun.
    rewrite (lookup_fmap_Some' col_length _ _ _ Hk),
      (lookup_fmap_Some' s21_dB _ _ _ Hk) in Hrun. simpl in Hrun.
    rewrite (lookup_fmap_Some' s11_dB _ _ _ Hk) in Hrun. simpl in Hrun.
    inversion Hrun; subst w'.
    exists (col_length row / um)%float, (s21_dB row), (s11_dB row).
    split; [|done]. by exists k, row.
  - destruct Hnext as [-> Hnone]. simpl in Hrun.
    done.
Qed.

Lemma filter_snoc_true {A} (f : A → bool) (l : list A) (x : A) :
  f x = true → filter (λ y, f y = true) (l ++ [x]) = filter (λ y, f y = true) l ++ [x].
Proof. intros H. rewrite filter_app, filter_cons_True by done. done. Qed.

Lemma filter_snoc_false {A} (f : A → bool) (l : list A) (x : A) :
  f x = false → filter (λ y, f y = true) (l ++ [x]) = filter (λ y, f y = true) l.
Proof.
  intros H. rewrite filter_app, filter_cons_False by congruence.
  by rewrite filter_nil, app_nil_r.
Qed.

Lemma omap_snoc {A B} (f : A → option B) (l : list A) (x : A) :
  omap f (l ++ [x]) = omap f l ++ match f x with Some y => [y] | None => [] end.
Proof. rewrite omap_app. simpl. by destruct (f x). Qed.

Lemma loop_body_sweep_state (r0 : RoutingTaperDesignRecipe) (log0 : list log_record)
    (comps : list Component) (j : nat) (c : Component) (w w' : world) :
  comps !! j = Some c →
  sweep_state r0 log0 comps j w →
  loop_body (simulation_setup r0) (convergence_setup r0) (design_intent r0) c w
  = (Ok tt, w') →
  sweep_state r0 log0 comps (S j) w'.
Proof.
  intros Hc (Hself & Hcomps & (records & Hlog & Herr) & Hsim & HL & HT & HR & HD & Hfound)
    Hrun.
  unfold sweep_state. rewrite (take_S_r _ _ _ Hc).
  destruct (new_LumericalEmeSimulation c (material_map (self w)) (layer_stack (self w))
              (simulation_setup r0) (convergence_setup r0) eval_flags (dirpath (self w)))
    as [sim|e] eqn:Hnew.
  2:{ rewrite (loop_body_failed _ _ _ _ _ _ Hnew) in Hrun. inversion Hrun; subst w'.
      rewrite Hself in Hnew.
      assert (Hb : built r0 c = false) by (unfold built; by rewrite Hnew).
      assert (Hf : failure_record r0 c = Some (error_failed_to_simulate e c))
        by (unfold failure_record; by rewrite Hnew).
      split; [done|]. split; [done|]. split.
      { exists (records ++ [error_failed_to_simulate e c]). simpl. split.
        - by rewrite Hlog, <- app_assoc.
        - rewrite filter_snoc_true by done. by rewrite omap_snoc, Hf, Herr. }
      split; [by rewrite filter_snoc_false|done]. }
  destruct (get_length_sweep sim (start_length (design_intent r0))
              (stop_length (design_intent r0)) (num_pts (design_intent r0)))
    as [table|e] eqn:Hsweep.
  2:{ destruct (loop_body_sweep_raises _ _ _ _ _ _ _ Hnew Hsweep) as [w'' Hraise].
      congruence. }
  rewrite (loop_body_simulated _ _ _ _ _ _ _ Hnew Hsweep) in Hrun.
  apply threshold_search_searched in Hrun as (L & T & R & Hfind & Hw').
  rewrite Hself in Hnew.
  assert (Hb : built r0 c = true) by (unfold built; by rewrite Hnew).
  assert (Hf : failure_record r0 c = None) by (unfold failure_record; by rewrite Hnew).
  assert (Hentries : ∀ i L' T' R' table',
    (optimal_lengths (locals w) ++ [L]) !! i = Some L' →
    (transmission_coefficients (locals w) ++ [T]) !! i = Some T' →
    (reflection_coefficients (locals w) ++ [R]) !! i = Some R' →
    (length_sweeps (locals w) ++ [table]) !! i = Some table' →
    searched (design_intent r0) table' L' T' R').
  { intros i L' T' R' table' H1 H2 H3 H4.
    apply lookup_snoc_Some in H1 as [[Hi H1]|[Hi ->]];
      apply lookup_snoc_Some in H2 as [[Hi2 H2]|[Hi2 ->]]; try lia;
      apply lookup_snoc_Some in H3 as [[Hi3 H3]|[Hi3 ->]]; try lia;
      apply lookup_snoc_Some in H4 as [[Hi4 H4]|[Hi4 ->]]; try lia.
    - by apply (Hfound i).
    - done. }
  rewrite filter_snoc_true, omap_snoc, Hf, app_nil_r by done.
  subst w'. simpl.
  split; [done|]. split; [done|]. split; [by exists records|].
  split; [by rewrite Hsim|]. rewrite !length_app. simpl.
  repeat (split; [lia|]). exact Hentries.
Qed.

(** The state that a sweep leaves when it ends normally. *)
Lemma sweep_geometry_state (w w' : world) :
  sweep_geometry w = (Ok tt, w') →
  sweep_state (self w) (log w) (candidates (self w)) (length (candidates (self w))) w'.
Proof.
  intros Hrun. unfold sweep_geometry in Hrun.
  erewrite M_bind_Ok in Hrun by reflexivity. cbv beta zeta in Hrun.
  erewrite M_bind_Ok in Hrun by reflexivity.
  erewrite M_bind_Ok in Hrun by reflexivity.
  simpl locals in Hrun. simpl components in Hrun.
  fold (candidates (self w)) in Hrun.
  eapply (for_each_Ok_invariant
            (sweep_state (self w) (log w) (candidates (self w)))); [| |exact Hrun].
  - intros j c s1 s2 Hc. by apply loop_body_sweep_state.
  - split; [done|]. split; [done|]. split; [exists []; by rewrite app_nil_r|].
    repeat (split; [done|]).
    intros i L T R table Hi. simpl in Hi. by rewrite lookup_nil in Hi.
Qed.

(** After a sweep that ends normally, the simulated components are the
    candidates whose simulation could be built, in the order of the width
    types; the errors logged meanwhile are those of the other candidates, one
    each and in that order; and the three result lists and the list of sweep
    tables have one entry per simulated component. *)
Theorem sweep_simulated_candidates (w w' : world) :
  sweep_geometry w = (Ok tt, w') →
  simulated_components (locals w')
  = filter (λ c, built (self w) c = true) (candidates (self w))
  ∧ (∃ records,
       log w' = log w ++ records
       ∧ filter (λ r, is_error_record r = true) records
         = omap (failure_record (self w)) (candidates (self w)))
  ∧ length (optimal_lengths (locals w')) = length (simulated_components (locals w'))
  ∧ length (transmission_coefficients (locals w')) = length (simulated_components (locals w'))
  ∧ length (reflection_coefficients (locals w')) = length (simulated_components (locals w'))
  ∧ length (length_sweeps (locals w')) = length (simulated_components (locals w')).
Proof.
  intros Hrun. apply sweep_geometry_state in Hrun.
  destruct Hrun as (_ & _ & Hlog & Hsim & HL & HT & HR & HD & _).
  rewrite take_ge in Hlog, Hsim by lia. done.
Qed.

End sweep.

(** [sine] is skipped on the bench and [linear] and [parabolic] are kept. *)
Lemma sweep_simulated_candidates_witness :
  simulated_components (locals (@sweep_geometry Bench.sine_fails Bench.sine_fails_world).2)
  = filter (λ c, @built Bench.sine_fails (self Bench.sine_fails_world) c = true)
      (candidates (self Bench.sine_fails_world))
  ∧ (∃ records,
       log (@sweep_geometry Bench.sine_fails Bench.sine_fails_world).2
       = log Bench.sine_fails_world ++ records
       ∧ filter (λ r, is_error_record r = true) records
         = omap (failure_record (self Bench.sine_fails_world))
             (candidates (self Bench.sine_fails_world)))
  ∧ length (optimal_lengths (locals (@sweep_geometry Bench.sine_fails Bench.sine_fails_world).2))
    = length (simulated_components
                (locals (@sweep_geometry Bench.sine_fails Bench.sine_fails_world).2))
  ∧ length (transmission_coefficients
              (locals (@sweep_geometry Bench.sine_fails Bench.sine_fails_world).2))
    = length (simulated_components
                (locals (@sweep_geometry Bench.sine_fails Bench.sine_fails_world).2))
  ∧ length (reflection_coefficients
              (locals (@sweep_geometry Bench.sine_fails Bench.sine_fails_world).2))
    = length (simulated_components
                (locals (@sweep_geometry Bench.sine_fails Bench.sine_fails_world).2))
  ∧ length (length_sweeps (locals (@sweep_geometry Bench.sine_fails Bench.sine_fails_world).2))
    = length (simulated_components
                (locals (@sweep_geometry Bench.sine_fails Bench.sine_fails_world).2)).
Proof.
  apply (@sweep_simulated_candidates Bench.sine_fails Bench.sine_fails_world).
  apply run_Ok. vm_compute. reflexivity.
Defined.

(** ** The candidate that is taken *)

(** [l.index(min(l))], when it returns: the item at the index has no item of
    the list strictly below it. *)
Lemma index_of_min_inv (l : list float) (i : nat) :
  index_of_min l = Ok i →
  ∃ v, l !! i = Some v ∧ ∀ y, y ∈ l → (y <? v)%float = false.
Proof.
  destruct l as [|x l]; [done|]. intros Hrun.
  destruct (py_min_spec x l) as (m & Hm & Hslot & Hmin).
  destruct (index_loop_spec m (x :: l) 0 (item_slot m) Hslot eq_refl)
    as (i' & y & Hi & _ & Hy & Hwhy & _).
  unfold index_of_min, py_index in Hrun. rewrite Hm, Hi in Hrun.
  inversion Hrun; subst i'. exists y. split; [done|].
  intros z Hz. destruct Hwhy as [->|Heq].
  - rewrite Hslot in Hy. inversion Hy; subst y. auto.
  - rewrite (float_ltb_eqb_r _ _ _ Heq). auto.
Qed.

Section taken.
Context {env : Collaborators}.

(** What a selection that ends normally did. *)
Lemma get_best_component_inv (w w' : world) :
  get_best_component w = (Ok tt, w') →
  ∃ ind1 ind2 shortest L wtype data results,
    index_of_min (optimal_lengths (locals w)) = Ok ind1
    ∧ index_of_min (reflection_coefficients (locals w)) = Ok ind2
    ∧ shortest_is_acceptable (design_intent (self w)) (locals w) ind1 ind2 = Ok shortest
    ∧ optimal_lengths (locals w) !! (if shortest : bool then ind1 else ind2) = Some L
    ∧ WidthTypes !! (if shortest : bool then ind1 else ind2) = Some wtype
    ∧ length_sweeps (locals w) !! (if shortest : bool then ind1 else ind2) = Some data
    ∧ w' = {| self :=
                set_length_sweep data
                  (set_component
                     (cell (self w) (cross_section1 (self w)) (cross_section2 (self w))
                        L wtype)
                     (self w));
              log := log w ++ [info_results results];
              locals := locals w |}.
Proof.
  intros Hrun. unfold get_best_component in Hrun.
  apply M_bind_inv in Hrun as (w0 & s0 & Hget & Hrun). inversion Hget; subst w0 s0.
  cbv beta zeta in Hrun.
  apply M_bind_inv in Hrun as (results & s0 & Hres & Hrun).
  apply mapM_lift_inv in Hres as [-> _].
  apply M_bind_inv in Hrun as ([] & w3 & Hlog & Hrun).
  unfold logger, modify in Hlog. inversion Hlog; subst w3. clear Hlog Hget.
  apply M_bind_inv in Hrun as (ind1 & s0 & Hi1 & Hrun). apply lift_inv in Hi1 as [Hi1 ->].
  apply M_bind_inv in Hrun as (ind2 & s0 & Hi2 & Hrun). apply lift_inv in Hi2 as [Hi2 ->].
  apply M_bind_inv in Hrun as (shortest & s0 & Hshort & Hrun).
  apply lift_inv in Hshort as [Hshort ->].
  apply M_bind_inv in Hrun as (best & s0 & Hbest & Hrun).
  apply lift_inv in Hbest as [Hbest ->].
  assert (Hsel : select (self w) (locals w) (if shortest then ind1 else ind2) = Ok best)
    by (by destruct shortest).
  unfold select, result_bind in Hsel.
  destruct (py_getitem (optimal_lengths (locals w)) (if shortest then ind1 else ind2))
    as [L|] eqn:HLp; [|done].
  destruct (py_getitem WidthTypes (if shortest then ind1 else ind2))
    as [wtype|] eqn:HWp; [|done].
  destruct (py_getitem (length_sweeps (locals w)) (if shortest then ind1 else ind2))
    as [data|] eqn:HDp; [|done].
  apply py_getitem_inv in HLp, HWp, HDp. inversion Hsel; subst best. clear Hsel Hbest.
  unfold on_self, modify, mbind, M_bind in Hrun. inversion Hrun; subst w'. clear Hrun.
  by exists ind1, ind2, shortest, L, wtype, data, results.
Qed.

(** The candidate that a selection takes has a least reflection, or it has a
    least optimal length and a reflection strictly below [max_reflection]
    ("least": no candidate has a strictly smaller one). *)
Theorem selection_is_optimal (w w' : world) :
  get_best_component w = (Ok tt, w') →
  ∃ picked L R wtype,
    component (self w')
    = Some (cell (self w) (cross_section1 (self w)) (cross_section2 (self w)) L wtype)
    ∧ optimal_lengths (locals w) !! picked = Some L
    ∧ reflection_coefficients (locals w) !! picked = Some R
    ∧ ((∀ y, y ∈ reflection_coefficients (locals w) → (y <? R)%float = false)
       ∨ ((∀ y, y ∈ optimal_lengths (locals w) → (y <? L)%float = false)
          ∧ (R <? max_reflection (design_intent (self w)))%float = true)).
Proof.
  intros Hrun.
  apply get_best_component_inv in Hrun
    as (ind1 & ind2 & shortest & L & wtype & data & results
        & Hi1 & Hi2 & Hshort & HL & HW & HD & ->).
  apply index_of_min_inv in Hi1 as (v1 & Hv1 & Hmin1).
  apply index_of_min_inv in Hi2 as (v2 & Hv2 & Hmin2).
  unfold shortest_is_acceptable in Hshort.
  destruct (ind1 =? ind2)%nat eqn:Heq.
  - apply Nat.eqb_eq in Heq. subst ind2. inversion Hshort; subst shortest.
    exists ind1, L, v2, wtype. simpl. repeat split; try done. by left.
  - unfold result_bind in Hshort.
    destruct (py_getitem (reflection_coefficients (locals w)) ind1) as [r1|] eqn:Hr1; [|done].
    apply py_getitem_inv in Hr1. inversion Hshort; subst shortest. clear Hshort.
    destruct (r1 <? max_reflection (design_intent (self w)))%float eqn:Hlow.
    + exists ind1, L, r1, wtype. simpl. repeat split; try done.
      right. split; [|done]. assert (v1 = L) as <- by congruence. done.
    + exists ind2, L, v2, wtype. simpl. repeat split; try done. by left.
Qed.

End taken.

(** In the scenario of the bench, the candidate taken has the least
    reflection. *)
Lemma selection_is_optimal_witness :
  ∃ picked L R wtype,
    component (self (get_best_component Bench.scenario_world).2)
    = Some (cell (self Bench.scenario_world) (cross_section1 (self Bench.scenario_world))
              (cross_section2 (self Bench.scenario_world)) L wtype)
    ∧ optimal_lengths (locals Bench.scenario_world) !! picked = Some L
    ∧ reflection_coefficients (locals Bench.scenario_world) !! picked = Some R
    ∧ ((∀ y, y ∈ reflection_coefficients (locals Bench.scenario_world) →
          (y <? R)%float = false)
       ∨ ((∀ y, y ∈ optimal_lengths (locals Bench.scenario_world) →
             (y <? L)%float = false)
          ∧ (R <? max_reflection (design_intent (self Bench.scenario_world)))%float = true)).
Proof.
  apply (@selection_is_optimal Bench.sine_fails Bench.scenario_world).
  apply run_Ok. vm_compute. reflexivity.
Defined.

(** ** What a completed [eval] saves *)

Lemma filter_all_true {A} (f : A → bool) (l : list A) :
  (∀ x, x ∈ l → f x = true) → filter (λ x, f x = true) l = l.
Proof.
  induction l as [|x l IH]; intros Hall; [done|].
  rewrite filter_cons_True by (apply Hall; left). f_equal. apply IH.
  intros y Hy. apply Hall. by right.
Qed.

Section saved.
Context {env : Collaborators}.

(** The three steps of an [eval] that ends normally. *)
Lemma eval_inv (w w' : world) :
  eval w = (Ok tt, w') →
  ∃ h w2,
    hash (self w) = Ok h
    ∧ sweep_geometry {| self := set_last_hash h (self w); log := log w; locals := locals w |}
      = (Ok tt, w2)
    ∧ get_best_component w2 = (Ok tt, w').
Proof.
  intros Hrun. unfold eval in Hrun.
  apply M_bind_inv in Hrun as (w0 & s0 & Hget & Hrun). inversion Hget; subst w0 s0.
  apply M_bind_inv in Hrun as (h & s0 & Hh & Hrun). apply lift_inv in Hh as [Hh ->].
  apply M_bind_inv in Hrun as ([] & w1 & Hset & Hrun).
  apply M_bind_inv in Hrun as ([] & w2 & Hsweep & Hrun).
  unfold on_self, modify in Hset. inversion Hset; subst w1.
  by exists h, w2.
Qed.

(** When [eval] ends normally, the length of the component it saves is the
    one that the threshold search finds in the sweep table it saves: the
    length, in the unit of the sweep, of the first row whose transmission is
    above the threshold; the table has such a row. *)
Theorem eval_saves_searched_optimum (w w' : world) :
  eval w = (Ok tt, w') →
  ∃ L T R wtype table,
    component (self w')
    = Some (cell (self w) (cross_section1 (self w)) (cross_section2 (self w)) L wtype)
    ∧ length_sweep (self w') = Some table
    ∧ searched (design_intent (self w)) table L T R.
Proof.
  intros Hrun. apply eval_inv in Hrun as (h & w2 & _ & Hsweep & Hbest).
  apply sweep_geometry_state in Hsweep.
  destruct Hsweep as (Hself & _ & _ & _ & HL & HT & HR & HD & Hfound).
  simpl in Hself, Hfound.
  apply get_best_component_inv in Hbest
    as (ind1 & ind2 & shortest & L & wtype & data & results
        & _ & _ & _ & HLp & HWp & HDp & ->).
  set (picked := if shortest then ind1 else ind2) in *.
  assert (Hp : picked < length (optimal_lengths (locals w2))) by (by eapply lookup_lt_Some).
  destruct (lookup_lt_is_Some_2 (transmission_coefficients (locals w2)) picked)
    as [T HTp]; [lia|].
  destruct (lookup_lt_is_Some_2 (reflection_coefficients (locals w2)) picked)
    as [R HRp]; [lia|].
  exists L, T, R, wtype, data. simpl. rewrite Hself. simpl.
  repeat split; try done. by apply (Hfound picked).
Qed.

(** When the simulation of every candidate can be built and [eval] ends
    normally, the component that is saved has the cross sections and the
    width type of the simulated candidate that was taken, and differs from it
    in its length only: the optimal length of that candidate, whose sweep
    table is the one that is saved. *)
Theorem eval_saves_taken_candidate (w w' : world) :
  (∀ c, c ∈ candidates (self w) → built (self w) c = true) →
  eval w = (Ok tt, w') →
  ∃ picked L wtype table,
    simulated_components (locals w') !! picked
    = Some (cell (self w) (cross_section1 (self w)) (cross_section2 (self w))
              5%float wtype)
    ∧ optimal_lengths (locals w') !! picked = Some L
    ∧ length_sweeps (locals w') !! picked = Some table
    ∧ component (self w')
      = Some (cell (self w) (cross_section1 (self w)) (cross_section2 (self w)) L wtype)
    ∧ length_sweep (self w') = Some table.
Proof.
  intros Hall Hrun. apply eval_inv in Hrun as (h & w2 & _ & Hsweep & Hbest).
  apply sweep_geometry_state in Hsweep.
  destruct Hsweep as (Hself & _ & _ & Hsim & _).
  simpl in Hself, Hsim. rewrite take_ge in Hsim by lia.
  change (candidates (set_last_hash h (self w))) with (candidates (self w)) in Hsim.
  rewrite (filter_all_true (built (set_last_hash h (self w)))) in Hsim by exact Hall.
  apply get_best_component_inv in Hbest
    as (ind1 & ind2 & shortest & L & wtype & data & results
        & _ & _ & _ & HLp & HWp & HDp & ->).
  set (picked := if shortest then ind1 else ind2) in *.
  exists picked, L, wtype, data. simpl. rewrite Hself, Hsim. simpl.
  repeat split; try done.
  unfold candidates. by rewrite list_lookup_fmap, HWp.
Qed.

End saved.

(** On the bench where [sine] cannot be simulated, [linear] is taken at its
    first row above the threshold. *)
Lemma eval_saves_searched_optimum_witness :
  ∃ L T R wtype table,
    component (self (@eval Bench.sine_fails Bench.sine_fails_world).2)
    = Some (cell (self Bench.sine_fails_world)
              (cross_section1 (self Bench.sine_fails_world))
              (cross_section2 (self Bench.sine_fails_world)) L wtype)
    ∧ length_sweep (self (@eval Bench.sine_fails Bench.sine_fails_world).2) = Some table
    ∧ @searched Bench.sine_fails (design_intent (self Bench.sine_fails_world)) table L T R.
Proof.
  apply (@eval_saves_searched_optimum Bench.sine_fails Bench.sine_fails_world).
  apply run_Ok. vm_compute. reflexivity.
Defined.

(** On the bench where every width type is simulated, [linear] is taken and
    a linear taper is saved. *)
Lemma eval_saves_taken_candidate_witness :
  ∃ picked L wtype table,
    simulated_components (locals (@eval Bench.all_built Bench.all_built_world).2) !! picked
    = Some (cell (self Bench.all_built_world)
              (cross_section1 (self Bench.all_built_world))
              (cross_section2 (self Bench.all_built_world)) 5%float wtype)
    ∧ optimal_lengths (locals (@eval Bench.all_built Bench.all_built_world).2) !! picked
      = Some L
    ∧ length_sweeps (locals (@eval Bench.all_built Bench.all_built_world).2) !! picked
      = Some table
    ∧ component (self (@eval Bench.all_built Bench.all_built_world).2)
      = Some (cell (self Bench.all_built_world)
                (cross_section1 (self Bench.all_built_world))
                (cross_section2 (self Bench.all_built_world)) L wtype)
    ∧ length_sweep (self (@eval Bench.all_built Bench.all_built_world).2) = Some table.
Proof.
  apply (@eval_saves_taken_candidate Bench.all_built Bench.all_built_world).
  - intros c Hc. unfold candidates, WidthTypes, Bench.all_built, Bench.bench,
      Bench.gdsfactory_width_types in Hc. simpl in Hc.
    repeat (apply elem_of_cons in Hc as [->|Hc]; [reflexivity|]).
    inversion Hc.
  - apply run_Ok. vm_compute. reflexivity.
Defined.

(** ** The stored hash *)

Section stored_hash.
Context {env : Collaborators}.

(** [eval] computes [hash(self)] before anything else.  When that raises,
    [eval] raises the same exception and leaves the recipe, the log and the
    locals as they were; when it gives [h], the recipe holds [h] as its
    [last_hash] when [eval] ends, whether the sweep and the selection that
    follow end normally or raise. *)
Theorem eval_stores_hash_first (w : world) :
  match hash (self w) with
  | Ok h => last_hash (self (eval w).2) = Some h
  | Raise e => eval w = (Raise e, w)
  end.
Proof.
  destruct (hash (self w)) as [h|e] eqn:Hh.
  - set (R := λ r r' : RoutingTaperDesignRecipe, last_hash r' = last_hash r).
    assert (Hrefl : ∀ r, R r r) by done.
    assert (Htrans : ∀ a b c, R a b → R b c → R a c).
    { unfold R. intros a b c Hab Hbc. by rewrite Hbc. }
    assert (Hrest : preserves R (sweep_geometry ;; get_best_component)).
    { apply preserves_bind; [exact Htrans|by apply preserves_sweep_geometry|intros _].
      apply preserves_get_best_component; try done. }
    unfold eval, mbind, M_bind, get, lift. rewrite Hh. simpl.
    exact (Hrest {| self := set_last_hash h (self w); log := log w; locals := locals w |}).
  - unfold eval, mbind, M_bind, get, lift. by rewrite Hh.
Qed.

Lemma from_bytes_nonneg (b : list byte) : (0 ≤ from_bytes b)%Z.
Proof.
  induction b as [|x b IH] using rev_ind; [done|].
  rewrite from_bytes_snoc. lia.
Qed.

(** The ways [__hash__] ends.  It raises [OverflowError] exactly when the
    digest of the superclass is negative, whatever the settings are; with a
    digest that is not negative it raises [AttributeError] exactly when the
    simulation settings or the convergence settings are [None]; otherwise it
    returns a number that is not negative, the SHA-1 digest, read as a
    big-endian number, of the bytes of the superclass digest followed by the
    three JSON dumps. *)
Theorem fingerprint_outcomes (r : RoutingTaperDesignRecipe) :
  let n := DesignRecipe_hash (cell r) (material_map r) (layer_stack r) in
  match __hash__ r with
  | Raise e =>
      ((n < 0)%Z ∧ exn_cls e = OverflowError)
      ∨ ((0 ≤ n)%Z ∧ exn_cls e = AttributeError
         ∧ (simulation_setup r = None ∨ convergence_setup r = None))
  | Ok d =>
      (0 ≤ n)%Z ∧ (0 ≤ d)%Z
      ∧ ∃ ss cs b0,
          simulation_setup r = Some ss ∧ convergence_setup r = Some cs
          ∧ from_bytes b0 = n
          ∧ d = from_bytes
                  (sha1_digest
                     (b0 ++ encode (simulation_dump_json ss)
                         ++ encode (convergence_dump_json cs)
                         ++ encode (intent_dump_json (design_intent r))))
  end.
Proof.
  intros n. unfold __hash__. fold n.
  change (7 / 8)%Z with 0%Z. rewrite Z.add_0_r. unfold to_bytes.
  destruct (n <? 0)%Z eqn:Hneg.
  { apply Z.ltb_lt in Hneg. simpl. by left. }
  apply Z.ltb_ge in Hneg. destruct (below_bit_length n Hneg) as [Hlt Hbl].
  destruct (256 ^ bit_length n <=? n)%Z eqn:Hbig; [apply Z.leb_le in Hbig; lia|].
  simpl.
  destruct (simulation_setup r) as [ss|]; simpl; [|right; auto].
  destruct (convergence_setup r) as [cs|]; simpl; [|right; auto].
  split; [done|]. split; [apply from_bytes_nonneg|].
  exists ss, cs, (rev (little_endian (Z.to_nat (bit_length n)) n)).
  repeat split.
  apply from_bytes_little_endian. rewrite Z2Nat.id by lia. lia.
Qed.

End stored_hash.

(** ** Errors of the sweep *)

Section sweep_errors.
Context {env : Collaborators}.

(** Only the construction of the simulation is guarded.  When the simulation
    of a candidate is built and its length sweep raises, the loop stops with
    that exception: the candidates after it are not visited, nothing is
    logged, and the candidate is left among the simulated components without
    a sweep table and without an optimum. *)
Theorem sweep_error_is_not_caught (ss : option SimulationSettingsLumericalEme)
    (cs : option ConvergenceSettingsLumericalEme) (di : RoutingTaperDesignIntent)
    (c : Component) (rest : list Component) (w : world)
    (sim : LumericalEmeSimulation) (e : exception) :
  new_LumericalEmeSimulation c (material_map (self w)) (layer_stack (self w))
    ss cs eval_flags (dirpath (self w)) = Ok sim →
  get_length_sweep sim (start_length di) (stop_length di) (num_pts di) = Raise e →
  ∃ w',
    for_each (c :: rest) (loop_body ss cs di) w = (Raise e, w')
    ∧ self w' = self w
    ∧ log w' = log w
    ∧ simulated_components (locals w') = simulated_components (locals w) ++ [c]
    ∧ length_sweeps (locals w') = length_sweeps (locals w)
    ∧ optimal_lengths (locals w') = optimal_lengths (locals w).
Proof.
  intros Hsim Hsweep.
  unfold for_each, loop_body, try_except, mbind, M_bind, lift, get.
  rewrite Hsim. simpl. rewrite Hsweep. eexists. split; [reflexivity|]. by simpl.
Qed.

(** When the sweep of a candidate comes back without a row, the search for
    the first row above the threshold is exhausted at once: the warning is
    logged and [stop_length] is taken as the optimal length, and then the
    last transmission cannot be read.  The loop stops with a lookup error and
    leaves one more optimal length than transmission coefficients. *)
Theorem empty_sweep_stops_the_loop (ss : option SimulationSettingsLumericalEme)
    (cs : option ConvergenceSettingsLumericalEme) (di : RoutingTaperDesignIntent)
    (c : Component) (rest : list Component) (w : world)
    (sim : LumericalEmeSimulation) :
  new_LumericalEmeSimulation c (material_map (self w)) (layer_stack (self w))
    ss cs eval_flags (dirpath (self w)) = Ok sim →
  get_length_sweep sim (start_length di) (stop_length di) (num_pts di) = Ok [] →
  ∃ e w',
    for_each (c :: rest) (loop_body ss cs di) w = (Raise e, w')
    ∧ is_LookupError (exn_cls e) = true
    ∧ log w'
      = log w ++ [warning_routing_loss c (narrow_waveguide_routing_loss_per_cm di)
                    (stop_length di)]
    ∧ optimal_lengths (locals w') = optimal_lengths (locals w) ++ [stop_length di]
    ∧ transmission_coefficients (locals w') = transmission_coefficients (locals w)
    ∧ reflection_coefficients (locals w') = reflection_coefficients (locals w).
Proof.
  intros Hsim Hsweep.
  unfold for_each, loop_body, try_except, mbind, M_bind, lift, get.
  rewrite Hsim. simpl. rewrite Hsweep.
  do 2 eexists. split; [reflexivity|]. by simpl.
Qed.

End sweep_errors.

(** On the bench whose sweeps raise, for the three candidates. *)
Lemma sweep_error_is_not_caught_witness :
  ∃ w',
    for_each (Bench.make_taper "narrow" "wide" 5 "sine"
              :: [Bench.make_taper "narrow" "wide" 5 "linear";
                  Bench.make_taper "narrow" "wide" 5 "parabolic"])
      (@loop_body Bench.sweeps_raise (Some "{}") (Some "{}") default_intent)
      Bench.sweeps_raise_world
    = (Raise (Exc RuntimeError "sweep failed"), w')
    ∧ self w' = self Bench.sweeps_raise_world
    ∧ log w' = log Bench.sweeps_raise_world
    ∧ simulated_components (locals w')
      = simulated_components (locals Bench.sweeps_raise_world)
        ++ [Bench.make_taper "narrow" "wide" 5 "sine"]
    ∧ length_sweeps (locals w') = length_sweeps (locals Bench.sweeps_raise_world)
    ∧ optimal_lengths (locals w') = optimal_lengths (locals Bench.sweeps_raise_world).
Proof.
  apply (@sweep_error_is_not_caught Bench.sweeps_raise (Some "{}") (Some "{}")
           default_intent (Bench.make_taper "narrow" "wide" 5 "sine") _
           Bench.sweeps_raise_world (Bench.make_taper "narrow" "wide" 5 "sine")
           (Exc RuntimeError "sweep failed")); reflexivity.
Defined.

(** On the bench whose sweeps are empty, for the three candidates. *)
Lemma empty_sweep_stops_the_loop_witness :
  ∃ e w',
    for_each (Bench.make_taper "narrow" "wide" 5 "sine"
              :: [Bench.make_taper "narrow" "wide" 5 "linear";
                  Bench.make_taper "narrow" "wide" 5 "parabolic"])
      (@loop_body Bench.empty_sweeps (Some "{}") (Some "{}") default_intent)
      Bench.empty_sweeps_world
    = (Raise e, w')
    ∧ is_LookupError (exn_cls e) = true
    ∧ log w'
      = log Bench.empty_sweeps_world
        ++ [@warning_routing_loss Bench.empty_sweeps (Bench.make_taper "narrow" "wide" 5 "sine")
              (narrow_waveguide_routing_loss_per_cm default_intent)
              (stop_length default_intent)]
    ∧ optimal_lengths (locals w')
      = optimal_lengths (locals Bench.empty_sweeps_world) ++ [stop_length default_intent]
    ∧ transmission_coefficients (locals w')
      = transmission_coefficients (locals Bench.empty_sweeps_world)
    ∧ reflection_coefficients (locals w')
      = reflection_coefficients (locals Bench.empty_sweeps_world).
Proof.
  apply (@empty_sweep_stops_the_loop Bench.empty_sweeps (Some "{}") (Some "{}")
           default_intent (Bench.make_taper "narrow" "wide" 5 "sine") _
           Bench.empty_sweeps_world (Bench.make_taper "narrow" "wide" 5 "sine"));
    reflexivity.
Defined.

(** * Further properties of the process file *)

Lemma run_Raise {S A} (p : result A * S) (e : exception) :
  p.1 = Raise e → p = (Raise e, p.2).
Proof. destruct p as [r s]. simpl. by intros ->. Qed.

Section process_file.
Import Utils.
Variable get_layer_stack : LayerStack.
Variable module_dir : string.

Lemma process_of_log (layer_name : string) (layer_info : LayerLevel) (w : Utils.world) :
  process_of layer_name layer_info w
  = (Ok (process_name layer_info),
     {| log := log w ++ (if is_supported layer_info then []
                         else [warning_layer_type (layer_type layer_info) layer_name]);
        files := files w |}).
Proof.
  unfold process_of, process_name, is_supported. destruct w as [l f]. simpl.
  destruct (String.eqb (layer_type layer_info) "grow");
    [simpl; by rewrite app_nil_r|].
  destruct (String.eqb (layer_type layer_info) "background");
    [simpl; by rewrite app_nil_r|].
  destruct (String.eqb (layer_type layer_info) "doping");
    [simpl; by rewrite app_nil_r|].
  reflexivity.
Qed.

(** A layer with an invalid dopant is of a type that the loop knows. *)
Lemma invalid_dopant_supported (layer_info : LayerLevel) :
  invalid_dopant layer_info = true → is_supported layer_info = true.
Proof.
  unfold invalid_dopant, process_name, is_supported.
  destruct (String.eqb (layer_type layer_info) "grow"); [done|].
  destruct (String.eqb (layer_type layer_info) "background"); [done|].
  destruct (String.eqb (layer_type layer_info) "doping"); done.
Qed.

(** A layer of a type that the loop does not know is handled as a grown
    layer. *)
Lemma unsupported_is_grown (layer_info : LayerLevel) :
  is_supported layer_info = false →
  process_name layer_info = "Grow" ∧ is_optical layer_info = true.
Proof.
  unfold is_supported, is_optical, process_name.
  destruct (String.eqb (layer_type layer_info) "grow"); [done|].
  destruct (String.eqb (layer_type layer_info) "background"); [done|].
  destruct (String.eqb (layer_type layer_info) "doping"); done.
Qed.

Lemma layer_step_cases (material_map : gmap string string)
    (acc : list Element * list Element) (entry : string * LayerLevel) (w : Utils.world) :
  let w1 := {| log := log w ++ warnings [entry]; files := files w |} in
  let layers :=
    acc.1 ++ (if is_optical entry.2
              then [optical_layer material_map entry.1 entry.2 (process_name entry.2)]
              else []) in
  if has_doping_layer entry.2 then
    match doping_layer entry.1 entry.2 (process_name entry.2) with
    | Ok d =>
        invalid_dopant entry.2 = false
        ∧ layer_step material_map acc entry w = (Ok (layers, acc.2 ++ [d]), w1)
    | Raise e =>
        invalid_dopant entry.2 = true
        ∧ e = Exc ValueError (dopant_message (default "" (background_doping_ion entry.2)))
        ∧ layer_step material_map acc entry w = (Raise e, w1)
    end
  else
    invalid_dopant entry.2 = false
    ∧ layer_step material_map acc entry w = (Ok (layers, acc.2), w1).
Proof.
  destruct entry as [layer_name layer_info]. simpl.
  assert (Hw : warnings [(layer_name, layer_info)]
               = if is_supported layer_info then []
                 else [warning_layer_type (layer_type layer_info) layer_name]).
  { unfold warnings. rewrite filter_cons, filter_nil. simpl.
    destruct (is_supported layer_info); by simplify_option_eq. }
  unfold layer_step. erewrite M_bind_Ok by apply process_of_log.
  rewrite Hw. clear Hw.
  unfold has_doping_layer, invalid_dopant, is_optical.
  destruct (String.eqb (process_name layer_info) "Grow"
            || String.eqb (process_name layer_info) "Background");
    (destruct (String.eqb (process_name layer_info) "Implant"
               || String.eqb (process_name layer_info) "Background"); simpl;
     [|by rewrite ?app_nil_r]);
    (destruct (is_doped layer_info); simpl; [|by rewrite ?app_nil_r]);
    unfold doping_layer, mbind, M_bind, lift, dopant_message;
    (destruct (String.eqb (default "" (background_doping_ion layer_info)) "n"
               || String.eqb (default "" (background_doping_ion layer_info)) "p");
     simpl; by rewrite ?app_nil_r).
Qed.

Lemma warnings_cons (entry : string * LayerLevel) (entries : LayerStack) :
  warnings (entry :: entries) = warnings [entry] ++ warnings entries.
Proof.
  unfold warnings. change (entry :: entries) with ([entry] ++ entries).
  by rewrite filter_app, fmap_app.
Qed.

(** The loop when it ends normally: what it appends to the children of
    [layers] and of [doping_layers], and what it logs. *)
Lemma layer_loop_Ok (material_map : gmap string string) (entries : LayerStack)
    (acc acc' : list Element * list Element) (w w' : Utils.world) :
  layer_loop material_map acc entries w = (Ok acc', w') →
  acc'.1 = acc.1 ++ ((λ entry, optical_layer material_map entry.1 entry.2
                                 (process_name entry.2))
                       <$> filter (λ entry, is_optical entry.2 = true) entries)
  ∧ (∃ doping,
       acc'.2 = acc.2 ++ doping
       ∧ Forall2 (λ entry d, doping_layer entry.1 entry.2 (process_name entry.2) = Ok d)
           (filter (λ entry, has_doping_layer entry.2 = true) entries) doping)
  ∧ log w' = log w ++ warnings entries
  ∧ files w' = files w.
Proof.
  unfold LayerStack in entries |- *.
  revert acc w. induction entries as [|entry rest IH]; intros acc w Hrun.
  - simpl in Hrun. inversion Hrun; subst. rewrite !filter_nil. simpl.
    rewrite !app_nil_r. split; [done|]. split; [|done].
    exists []. rewrite app_nil_r. split; [done|constructor].
  - simpl in Hrun. apply M_bind_inv in Hrun as (acc1 & w1 & Hstep & Hrun).
    apply IH in Hrun as (H1 & (doping & H2 & Hd) & Hlog & Hfiles).
    pose proof (layer_step_cases material_map acc entry w) as Hcases. simpl in Hcases.
    rewrite warnings_cons, !filter_cons.
    destruct (has_doping_layer entry.2) eqn:Hdop.
    + destruct (doping_layer entry.1 entry.2 (process_name entry.2)) as [d|e] eqn:Hd1.
      2:{ destruct Hcases as (_ & _ & Hc). rewrite Hc in Hstep. done. }
      destruct Hcases as [_ Hc]. rewrite Hc in Hstep. inversion Hstep; subst acc1 w1.
      simpl in *.
      split; [|split; [|split]].
      * rewrite H1, <- app_assoc. f_equal.
        by destruct (is_optical entry.2).
      * exists (d :: doping). split; [by rewrite H2, <- app_assoc|]. by constructor.
      * by rewrite Hlog, <- app_assoc.
      * done.
    + destruct Hcases as [_ Hc]. rewrite Hc in Hstep. inversion Hstep; subst acc1 w1.
      simpl in *.
      split; [|split; [|split]].
      * rewrite H1, <- app_assoc. f_equal.
        by destruct (is_optical entry.2).
      * by exists doping.
      * by rewrite Hlog, <- app_assoc.
      * done.
Qed.

(** The loop when it raises: the layer it stops at. *)
Lemma layer_loop_Raise (material_map : gmap string string) (entries : LayerStack)
    (acc : list Element * list Element) (w w' : Utils.world) (e : exception) :
  layer_loop material_map acc entries w = (Raise e, w') →
  ∃ before layer_name layer_info rest,
    entries = before ++ (layer_name, layer_info) :: rest
    ∧ Forall (λ entry, invalid_dopant entry.2 = false) before
    ∧ invalid_dopant layer_info = true
    ∧ e = Exc ValueError (dopant_message (default "" (background_doping_ion layer_info)))
    ∧ log w' = log w ++ warnings before
    ∧ files w' = files w.
Proof.
  unfold LayerStack in entries |- *.
  revert acc w. induction entries as [|entry rest IH]; intros acc w Hrun; [done|].
  simpl in Hrun. unfold mbind, M_bind in Hrun.
  pose proof (layer_step_cases material_map acc entry w) as Hcases. simpl in Hcases.
  destruct (has_doping_layer entry.2).
  - destruct (doping_layer entry.1 entry.2 (process_name entry.2)) as [d|e1].
    + destruct Hcases as [Hok Hc]. rewrite Hc in Hrun.
      apply IH in Hrun as (before & n & i & rest0 & -> & Hall & Hbad & He & Hlog & Hf).
      exists (entry :: before), n, i, rest0. simpl in *.
      split; [done|]. split; [by constructor|]. split; [done|]. split; [done|].
      split; [|done]. by rewrite Hlog, (warnings_cons entry before), <- app_assoc.
    + destruct Hcases as (Hbad & He & Hc). rewrite Hc in Hrun.
      inversion Hrun; subst. exists [], entry.1, entry.2, rest.
      destruct entry as [n i]. simpl in *.
      split; [done|]. split; [constructor|]. split; [done|]. split; [done|].
      split; [|done]. unfold warnings. rewrite filter_cons, filter_nil. simpl.
      rewrite (invalid_dopant_supported _ Hbad). simpl. by rewrite app_nil_r.
  - destruct Hcases as [Hok Hc]. rewrite Hc in Hrun.
    apply IH in Hrun as (before & n & i & rest0 & -> & Hall & Hbad & He & Hlog & Hf).
    exists (entry :: before), n, i, rest0. simpl in *.
    split; [done|]. split; [by constructor|]. split; [done|]. split; [done|].
    split; [|done]. by rewrite Hlog, (warnings_cons entry before), <- app_assoc.
Qed.

(** When [to_lbr] returns, it returns the path of [process.lbr] in the
    directory given, or in the directory of the module when the directory
    given is [None] or empty, and it has written exactly one file, at that
    path.  The file holds the process name, then one [layer] per layer of the
    stack under a Grow or Background process, in the order of the stack, then,
    unless there is none, one doping [layer] per layer under a Background or
    Implant process with a truthy doping concentration and ion, in the order
    of the stack. *)
Theorem to_lbr_process_file (material_map : gmap string string)
    (layerstack : option LayerStack) (dirpath : option PathType)
    (w w' : Utils.world) (path : string * string) :
  to_lbr get_layer_stack module_dir material_map layerstack dirpath w = (Ok path, w') →
  let stack := default get_layer_stack layerstack in
  path = (if opt_truthy str_truthy dirpath then default "" dirpath else module_dir,
          "process.lbr")
  ∧ ∃ doping,
      Forall2 (λ entry d, doping_layer entry.1 entry.2 (process_name entry.2) = Ok d)
        (filter (λ entry, has_doping_layer entry.2 = true) stack) doping
      ∧ files w'
        = files w
          ++ [(path.1, path.2,
               layer_builder_of
                 ((λ entry, optical_layer material_map entry.1 entry.2
                              (process_name entry.2))
                    <$> filter (λ entry, is_optical entry.2 = true) stack)
                 doping)].
Proof.
  intros Hrun stack. unfold to_lbr in Hrun. fold stack in Hrun.
  apply M_bind_inv in Hrun as (acc & w1 & Hloop & Hrun).
  apply layer_loop_Ok in Hloop as (H1 & (doping & H2 & Hd) & _ & Hfiles).
  simpl in H1, H2. unfold write_file, modify, mbind, M_bind, mret, M_ret in Hrun.
  inversion Hrun; subst path w'. clear Hrun. simpl.
  split; [by destruct (opt_truthy str_truthy dirpath)|].
  exists doping. split; [done|].
  rewrite Hfiles, H1, H2. unfold layer_builder_of.
  by destruct doping, (opt_truthy str_truthy dirpath).
Qed.

(** A layer whose type is not "grow", "background" or "doping" is not
    skipped: when [to_lbr] returns it has logged one warning per such layer,
    in the order of the stack, and has written each of them to the file as a
    layer under the Grow process. *)
Theorem to_lbr_writes_unsupported_layers (material_map : gmap string string)
    (layerstack : option LayerStack) (dirpath : option PathType)
    (w w' : Utils.world) (path : string * string) :
  to_lbr get_layer_stack module_dir material_map layerstack dirpath w = (Ok path, w') →
  let stack := default get_layer_stack layerstack in
  log w' = log w ++ warnings stack
  ∧ ∃ layers doping,
      files w' = files w ++ [(path.1, path.2, layer_builder_of layers doping)]
      ∧ ∀ layer_name layer_info,
          (layer_name, layer_info) ∈ stack →
          is_supported layer_info = false →
          optical_layer material_map layer_name layer_info "Grow" ∈ layers.
Proof.
  intros Hrun stack. unfold to_lbr in Hrun. fold stack in Hrun.
  apply M_bind_inv in Hrun as (acc & w1 & Hloop & Hrun).
  apply layer_loop_Ok in Hloop as (H1 & (doping & H2 & Hd) & Hlog & Hfiles).
  simpl in H1, H2. unfold write_file, modify, mbind, M_bind, mret, M_ret in Hrun.
  inversion Hrun; subst path w'. clear Hrun. simpl.
  split; [done|].
  exists acc.1, acc.2. split.
  - rewrite Hfiles, H2. unfold layer_builder_of.
    by destruct doping, (opt_truthy str_truthy dirpath).
  - intros layer_name layer_info Hin Hun.
    destruct (unsupported_is_grown _ Hun) as [Hname Hopt].
    rewrite H1. apply list_elem_of_fmap.
    exists (layer_name, layer_info). simpl. rewrite Hname. split; [done|].
    apply list_elem_of_filter. by split.
Qed.

(** When [to_lbr] raises, it stopped at the first layer of the stack with an
    invalid dopant: the message names the ion of that layer, the warnings of
    the layers before it have been logged, and no file has been written. *)
Theorem to_lbr_stops_at_first_invalid_dopant (material_map : gmap string string)
    (layerstack : option LayerStack) (dirpath : option PathType)
    (w w' : Utils.world) (e : exception) :
  to_lbr get_layer_stack module_dir material_map layerstack dirpath w = (Raise e, w') →
  ∃ before layer_name layer_info rest,
    default get_layer_stack layerstack = before ++ (layer_name, layer_info) :: rest
    ∧ Forall (λ entry, invalid_dopant entry.2 = false) before
    ∧ invalid_dopant layer_info = true
    ∧ e = Exc ValueError (dopant_message (default "" (background_doping_ion layer_info)))
    ∧ log w' = log w ++ warnings before
    ∧ files w' = files w.
Proof.
  intros Hrun. unfold to_lbr, mbind, M_bind in Hrun.
  destruct (layer_loop material_map ([], []) (default get_layer_stack layerstack) w)
    as [[acc|e1] w1] eqn:Hloop.
  - unfold write_file, modify in Hrun. done.
  - inversion Hrun; subst e1 w1. by eapply layer_loop_Raise.
Qed.

End process_file.

(** On the stack of a grown core and a doped cladding, written to [runs]. *)
Lemma to_lbr_process_file_witness :
  let run := Utils.to_lbr [] "gplugins/lumerical" ∅ (Some (take 2 Utils.boron_stack))
               (Some "runs") {| Utils.log := []; Utils.files := [] |} in
  ("runs", "process.lbr") = ("runs", "process.lbr")
  ∧ ∃ doping,
      Forall2 (λ entry d,
                 Utils.doping_layer entry.1 entry.2 (Utils.process_name entry.2) = Ok d)
        (filter (λ entry, Utils.has_doping_layer entry.2 = true)
           (take 2 Utils.boron_stack)) doping
      ∧ Utils.files run.2
        = [] ++ [("runs", "process.lbr",
                  Utils.layer_builder_of
                    ((λ entry, Utils.optical_layer ∅ entry.1 entry.2
                                 (Utils.process_name entry.2))
                       <$> filter (λ entry, Utils.is_optical entry.2 = true)
                             (take 2 Utils.boron_stack))
                    doping)].
Proof.
  intros run.
  apply (to_lbr_process_file [] "gplugins/lumerical" ∅ (Some (take 2 Utils.boron_stack))
           (Some "runs") {| Utils.log := []; Utils.files := [] |} run.2
           ("runs", "process.lbr")).
  apply run_Ok. vm_compute. reflexivity.
Defined.

(** On the stack with a trench of type "etch", written beside the module. *)
Lemma to_lbr_writes_unsupported_layers_witness :
  let run := Utils.to_lbr [] "gplugins/lumerical" ∅ (Some Utils.etch_stack) None
               {| Utils.log := []; Utils.files := [] |} in
  Utils.log run.2 = [] ++ Utils.warnings Utils.etch_stack
  ∧ ∃ layers doping,
      Utils.files run.2
      = [] ++ [("gplugins/lumerical", "process.lbr", Utils.layer_builder_of layers doping)]
      ∧ ∀ layer_name layer_info,
          (layer_name, layer_info) ∈ Utils.etch_stack →
          Utils.is_supported layer_info = false →
          Utils.optical_layer ∅ layer_name layer_info "Grow" ∈ layers.
Proof.
  intros run.
  apply (to_lbr_writes_unsupported_layers [] "gplugins/lumerical" ∅
           (Some Utils.etch_stack) None {| Utils.log := []; Utils.files := [] |} run.2
           ("gplugins/lumerical", "process.lbr")).
  apply run_Ok. vm_compute. reflexivity.
Defined.

(** On the stack whose implant names its ion in full. *)
Lemma to_lbr_stops_at_first_invalid_dopant_witness :
  let run := Utils.to_lbr [] "gplugins/lumerical" ∅ (Some Utils.boron_stack) None
               {| Utils.log := []; Utils.files := [] |} in
  ∃ before layer_name layer_info rest,
    Utils.boron_stack = before ++ (layer_name, layer_info) :: rest
    ∧ Forall (λ entry, Utils.invalid_dopant entry.2 = false) before
    ∧ Utils.invalid_dopant layer_info = true
    ∧ Exc ValueError (Utils.dopant_message "Boron")
      = Exc ValueError
          (Utils.dopant_message (default "" (background_doping_ion layer_info)))
    ∧ Utils.log run.2 = [] ++ Utils.warnings before
    ∧ Utils.files run.2 = [].
Proof.
  intros run.
  apply (to_lbr_stops_at_first_invalid_dopant [] "gplugins/lumerical" ∅
           (Some Utils.boron_stack) None {| Utils.log := []; Utils.files := [] |} run.2
           (Exc ValueError (Utils.dopant_message "Boron"))).
  apply run_Raise. vm_compute. reflexivity.
Defined.
